(** * The Sensors system of ign-gazebo: render-thread handoff and throttling

    A shallow embedding of [src/systems/sensors/Sensors.cc].

    The file has four parts:
    - the data of [SensorsPrivate] and of the sensor objects it points to;
    - the sequential pieces of the code as functions: the selection loop of
      [Sensors::PostUpdate], the masking loop of [Sensors::RunLoop] and
      [Sensors::CreateSensor];
    - the two threads ([PostUpdate] on the simulation thread, [RunLoop] on
      the render thread) and [Stop] as an interleaving machine over the
      shared data, one step per critical section or unsynchronised read;
    - the properties of the hand-off, of initialization, of shutdown and of
      the update mask.

    Conventions. A [common::Time] is the rational number of seconds it
    stands for.  The [double] returned by [UpdateRate()] is the rational it
    stands for (Hz), and the quotient [0.9 / rate] is taken exact (the
    rounding of the division to binary64 is not modelled); its conversion
    to a [common::Time] rounds it to whole nanoseconds, see
    [timeOfSeconds].  The quotient by a zero rate, which in the code is an
    infinite double converted to a time, is a [fault].  A pointer to a
    sensor is the key under which the sensor manager keeps the object; the
    null pointer is [None]. *)

From Stdlib Require Import QArith Qround Lqa String List.
From stdpp Require Import gmap.


(** ** Faults and results *)

Inductive fault : Type :=
| NullDereference   (* a member call through a null pointer *)
| DivisionByZero.   (* [0.9 / 0]: no valid time stamp *)

Inductive result (A : Type) : Type :=
| Ok (a : A)
| Err (f : fault).
Arguments Ok {A} a.
Arguments Err {A} f.

#[global] Instance result_ret : MRet result := fun A a => Ok a.

#[global] Instance result_bind : MBind result := fun A B k r =>
  match r with
  | Ok a => k a
  | Err f => Err f
  end.

(** ** Data *)

(** [sensors::SensorId] and [ignition::common::Time]. *)
Abbreviation SensorId := N.
Abbreviation Time := Q.

#[global] Instance Q_eq_dec : EqDecision Q.
Proof. solve_decision. Defined.

(** [sdf::SensorType]; only [NONE] is named by the code. *)
Inductive SensorType : Type :=
| NONE | ALTIMETER | CAMERA | DEPTH_CAMERA | GPU_LIDAR | IMU | RGBD_CAMERA.

#[global] Instance SensorType_eq_dec : EqDecision SensorType.
Proof. solve_decision. Defined.

(** [sdf::Sensor], the descriptor handed to [CreateSensor]. *)
Record SdfSensor : Type := {
  sdfType : SensorType;
  sdfName : string;
  sdfUpdateRate : Q
}.

(** A [sensors::Sensor] object.  [isRendering] tells whether
    [dynamic_cast<sensors::RenderingSensor *>] succeeds on it; the last
    three fields are what [SetScene], [SetParent] and
    [SetManualSceneUpdate] write. *)
Record SensorObj : Type := {
  Id : SensorId;
  Name : string;
  UpdateRate : Q;
  NextUpdateTime : Time;
  isRendering : bool;
  sensorScene : option nat;
  sensorParent : string;
  manualSceneUpdate : bool
}.

Definition bindToScene (sc : option nat) (parent : string) (o : SensorObj)
  : SensorObj :=
  {| Id := Id o; Name := Name o; UpdateRate := UpdateRate o;
     NextUpdateTime := NextUpdateTime o; isRendering := isRendering o;
     sensorScene := sc; sensorParent := parent; manualSceneUpdate := true |}.

(** The objects owned by [sensors::Manager], by key. *)
Abbreviation Manager := (gmap SensorId SensorObj).

(** Pointers to sensors. *)
Definition ptr : Type := option SensorId.

(** [sensorManager.Sensor(id)]: the object kept under [id], or null. *)
Definition managerSensor (mgr : Manager) (id : SensorId) : ptr :=
  match mgr !! id with
  | Some _ => Some id
  | None => None
  end.

(** [dynamic_cast<sensors::RenderingSensor *>(s)]. *)
Definition dynamicCastRendering (mgr : Manager) (s : ptr) : ptr :=
  match s with
  | Some k =>
      match mgr !! k with
      | Some o => if isRendering o then Some k else None
      | None => None
      end
  | None => None
  end.

(** [p->...]: the object behind a pointer. *)
Definition deref (mgr : Manager) (p : ptr) : result SensorObj :=
  match p with
  | Some k =>
      match mgr !! k with
      | Some o => Ok o
      | None => Err NullDereference
      end
  | None => Err NullDereference
  end.

(** The members of [SensorsPrivate] that hold data.  [sensorIds] is the
    [std::set], kept as its ascending enumeration; [activeSensors] holds
    pointers that were non-null when they were pushed. *)
Record SensorsPrivate : Type := {
  sensorManager : Manager;
  initialized : bool;
  sensorIds : list SensorId;
  scene : option nat;
  running : bool;
  doInit : bool;
  updateAvailable : bool;
  updateTime : Time;
  activeSensors : list SensorId;
  sensorMask : gmap SensorId Time
}.

Definition set_sensorManager (v : Manager) (d : SensorsPrivate) :=
  {| sensorManager := v; initialized := initialized d;
     sensorIds := sensorIds d; scene := scene d; running := running d;
     doInit := doInit d; updateAvailable := updateAvailable d;
     updateTime := updateTime d; activeSensors := activeSensors d;
     sensorMask := sensorMask d |}.

Definition set_sensorIds (v : list SensorId) (d : SensorsPrivate) :=
  {| sensorManager := sensorManager d; initialized := initialized d;
     sensorIds := v; scene := scene d; running := running d;
     doInit := doInit d; updateAvailable := updateAvailable d;
     updateTime := updateTime d; activeSensors := activeSensors d;
     sensorMask := sensorMask d |}.

Definition set_running (v : bool) (d : SensorsPrivate) :=
  {| sensorManager := sensorManager d; initialized := initialized d;
     sensorIds := sensorIds d; scene := scene d; running := v;
     doInit := doInit d; updateAvailable := updateAvailable d;
     updateTime := updateTime d; activeSensors := activeSensors d;
     sensorMask := sensorMask d |}.

Definition set_doInit (v : bool) (d : SensorsPrivate) :=
  {| sensorManager := sensorManager d; initialized := initialized d;
     sensorIds := sensorIds d; scene := scene d; running := running d;
     doInit := v; updateAvailable := updateAvailable d;
     updateTime := updateTime d; activeSensors := activeSensors d;
     sensorMask := sensorMask d |}.

Definition set_updateAvailable (v : bool) (d : SensorsPrivate) :=
  {| sensorManager := sensorManager d; initialized := initialized d;
     sensorIds := sensorIds d; scene := scene d; running := running d;
     doInit := doInit d; updateAvailable := v;
     updateTime := updateTime d; activeSensors := activeSensors d;
     sensorMask := sensorMask d |}.

Definition set_sensorMask (v : gmap SensorId Time) (d : SensorsPrivate) :=
  {| sensorManager := sensorManager d; initialized := initialized d;
     sensorIds := sensorIds d; scene := scene d; running := running d;
     doInit := doInit d; updateAvailable := updateAvailable d;
     updateTime := updateTime d; activeSensors := activeSensors d;
     sensorMask := v |}.

(** [initialized = true] together with the scene it was set with. *)
Definition set_initialized (sc : option nat) (d : SensorsPrivate) :=
  {| sensorManager := sensorManager d; initialized := true;
     sensorIds := sensorIds d; scene := sc; running := running d;
     doInit := doInit d; updateAvailable := updateAvailable d;
     updateTime := updateTime d; activeSensors := activeSensors d;
     sensorMask := sensorMask d |}.

(** The three assignments that install a cycle (lines 287-289). *)
Definition installCycle (t : Time) (sel : list SensorId) (d : SensorsPrivate) :=
  {| sensorManager := sensorManager d; initialized := initialized d;
     sensorIds := sensorIds d; scene := scene d; running := running d;
     doInit := doInit d; updateAvailable := true;
     updateTime := t; activeSensors := sel;
     sensorMask := sensorMask d |}.

(** [activeSensors.clear()] followed by [updateAvailable = false]. *)
Definition finishCycle (d : SensorsPrivate) :=
  {| sensorManager := sensorManager d; initialized := initialized d;
     sensorIds := sensorIds d; scene := scene d; running := running d;
     doInit := doInit d; updateAvailable := false;
     updateTime := updateTime d; activeSensors := [];
     sensorMask := sensorMask d |}.

(** [std::set::insert]: ascending, no duplicates. *)
Fixpoint set_insert (x : SensorId) (l : list SensorId) : list SensorId :=
  match l with
  | [] => [x]
  | y :: l' =>
      if (x <? y)%N then x :: l
      else if (x =? y)%N then l
      else y :: set_insert x l'
  end.

(** ** The selection loop of [PostUpdate] (lines 244-272) *)

(** [rs && rs->NextUpdateTime() <= t], then [push_back(rs)]. *)
Definition includeIfDue (t : Time) (mgr : Manager) (rs : ptr)
    (active : list SensorId) : result (list SensorId) :=
  match rs with
  | None => Ok active
  | Some k =>
      o ← deref mgr rs;
      Ok (if Qle_bool (NextUpdateTime o) t then active ++ [k] else active)
  end.

(** One iteration of the loop, for the identifier [id]. *)
Definition selectOne (t : Time) (mgr : Manager) (id : SensorId)
    (mask : gmap SensorId Time) (active : list SensorId)
  : result (gmap SensorId Time * list SensorId) :=
  let s := managerSensor mgr id in
  let rs := dynamicCastRendering mgr s in
  match mask !! id with
  | Some until =>
      if Qle_bool until t then
        active' ← includeIfDue t mgr rs active;
        Ok (delete id mask, active')
      else Ok (mask, active)
  | None =>
      active' ← includeIfDue t mgr rs active;
      Ok (mask, active')
  end.

Fixpoint selectLoop (t : Time) (mgr : Manager) (ids : list SensorId)
    (mask : gmap SensorId Time) (active : list SensorId)
  : result (gmap SensorId Time * list SensorId) :=
  match ids with
  | [] => Ok (mask, active)
  | id :: rest =>
      '(mask', active') ← selectOne t mgr id mask active;
      selectLoop t mgr rest mask' active'
  end.

(** The whole loop on the private data: the new mask and the local vector
    [activeSensors]. *)
Definition selectSensors (t : Time) (d : SensorsPrivate)
  : result (gmap SensorId Time * list SensorId) :=
  selectLoop t (sensorManager d) (sensorIds d) (sensorMask d) [].

(** ** The masking loop of [RunLoop] (lines 162-169) *)

(** [common::Time(double)], as ignition-common's [Time::Set] builds it:
    the seconds are the floor of the argument and the nanoseconds the
    remainder times 1e9, rounded to the nearest whole number (half up, the
    remainder not being negative); [Correct()] then carries a full second
    of nanoseconds over, which leaves the value as it is.  The result is a
    whole number of nanoseconds. *)
Definition nsInSec : Z := 1000000000.

Definition timeOfSeconds (x : Q) : Time :=
  let sec := Qfloor x in
  let nsec := Qfloor ((x - inject_Z sec) * inject_Z nsInSec + (1 # 2))%Q in
  (inject_Z sec + inject_Z nsec / inject_Z nsInSec)%Q.

(** [common::Time delta(0.9 / sensor->UpdateRate())]: the quotient, then
    the conversion to a time. *)
Definition maskDelta (rate : Q) : result Time :=
  if Qeq_bool rate 0 then Err DivisionByZero
  else Ok (timeOfSeconds ((9 # 10) / rate)).

Fixpoint maskActive (t : Time) (mgr : Manager) (active : list SensorId)
    (mask : gmap SensorId Time) : result (gmap SensorId Time) :=
  match active with
  | [] => Ok mask
  | p :: rest =>
      o ← deref mgr (Some p);
      delta ← maskDelta (UpdateRate o);
      maskActive t mgr rest (<[Id o := (t + delta)%Q]> mask)
  end.

(** ** The machine: two threads and [Stop] over the shared data

    A step of a thread is a stretch of code that the other thread cannot
    observe in the middle: a critical section of [renderMutex] (or the part
    of one up to the next point where this file needs the state), a
    notification, or an unsynchronised read of [running] and [initialized]
    in a loop condition or at a gate.  [sensorMaskMutex] is held by the
    selection loop and by the masking loop only, each of which is one step.
    A wait with a predicate is its lock-and-test step, the sleep, and the
    same lock-and-test step again after a wake-up. *)

(** Where the simulation thread stands inside [PostUpdate]. *)
Inductive SimPc : Type :=
| P_Idle          (* outside PostUpdate *)
| P_InitLock      (* line 228: about to lock and test the predicate *)
| P_InitWait      (* line 229: blocked in renderCv.wait *)
| P_InitNotify    (* line 233: unlocked, about to notify_one *)
| P_Gate          (* line 237 *)
| P_Select        (* lines 239-274 *)
| P_SubmitLock    (* line 278: about to lock and test the predicate *)
| P_SubmitWait.   (* line 279: blocked in renderCv.wait *)

(** Where the render thread stands inside [RunLoop]. *)
Inductive RenderPc : Type :=
| R_InitCheck     (* line 114: loop condition of the first loop *)
| R_InitLock      (* line 117: about to lock and wait *)
| R_InitWait      (* line 118: blocked in renderCv.wait(lock) *)
| R_InitWoken     (* line 118: notified, about to take the lock again *)
| R_LoopCheck     (* line 135: loop condition of the second loop *)
| R_LoopLock      (* line 138: about to lock and test the predicate *)
| R_LoopWait      (* line 139: blocked in renderCv.wait *)
| R_LoopMask      (* line 155: holds the lock, before the masking loop *)
| R_LoopRender    (* line 171: holds the lock, before PreRender *)
| R_LoopNotify    (* line 188: unlocked, about to notify_one *)
| R_Done.         (* RunLoop has returned *)

(** Where a caller of [Stop] stands. *)
Inductive StopPc : Type :=
| S_Idle          (* outside Stop *)
| S_Notify        (* line 102 *)
| S_Join.         (* lines 104-107 *)

#[global] Instance SimPc_eq_dec : EqDecision SimPc.
Proof. solve_decision. Defined.
#[global] Instance RenderPc_eq_dec : EqDecision RenderPc.
Proof. solve_decision. Defined.
#[global] Instance StopPc_eq_dec : EqDecision StopPc.
Proof. solve_decision. Defined.

(** What the threads do to the hand-off, recorded for the statements only;
    no step reads it. *)
Inductive Event : Type :=
| EvInitRequest                               (* doInit = true *)
| EvInit                                      (* renderUtil.Init() *)
| EvSubmit (t : Time) (sel : list SensorId)   (* a cycle is installed *)
| EvTake (t : Time) (sel : list SensorId)     (* the worker starts a cycle *)
| EvComplete                                  (* updateAvailable = false *)
| EvStop.                                     (* running = false *)

Record Machine : Type := {
  dataPtr : SensorsPrivate;
  renderMutex : bool;            (* held across steps, by the render thread *)
  simPc : SimPc;
  simT : Time;                   (* the local [t] of PostUpdate *)
  simActive : list SensorId;     (* the local [activeSensors] of PostUpdate *)
  renderPc : RenderPc;
  stopPc : StopPc;
  joined : bool;                 (* renderThread is no longer joinable *)
  errLog : list string;          (* what went to ignerr *)
  trace : list Event;            (* newest first *)
  initCalls : nat;               (* calls of renderUtil.Init() *)
  sawRendering : bool            (* some PostUpdate saw a rendering component *)
}.

Definition set_data (v : SensorsPrivate) (m : Machine) :=
  {| dataPtr := v; renderMutex := renderMutex m; simPc := simPc m;
     simT := simT m; simActive := simActive m; renderPc := renderPc m;
     stopPc := stopPc m; joined := joined m; errLog := errLog m;
     trace := trace m; initCalls := initCalls m;
     sawRendering := sawRendering m |}.

Definition set_mutex (v : bool) (m : Machine) :=
  {| dataPtr := dataPtr m; renderMutex := v; simPc := simPc m;
     simT := simT m; simActive := simActive m; renderPc := renderPc m;
     stopPc := stopPc m; joined := joined m; errLog := errLog m;
     trace := trace m; initCalls := initCalls m;
     sawRendering := sawRendering m |}.

Definition set_simPc (v : SimPc) (m : Machine) :=
  {| dataPtr := dataPtr m; renderMutex := renderMutex m; simPc := v;
     simT := simT m; simActive := simActive m; renderPc := renderPc m;
     stopPc := stopPc m; joined := joined m; errLog := errLog m;
     trace := trace m; initCalls := initCalls m;
     sawRendering := sawRendering m |}.

Definition set_simLocals (t : Time) (sel : list SensorId) (m : Machine) :=
  {| dataPtr := dataPtr m; renderMutex := renderMutex m; simPc := simPc m;
     simT := t; simActive := sel; renderPc := renderPc m;
     stopPc := stopPc m; joined := joined m; errLog := errLog m;
     trace := trace m; initCalls := initCalls m;
     sawRendering := sawRendering m |}.

Definition set_renderPc (v : RenderPc) (m : Machine) :=
  {| dataPtr := dataPtr m; renderMutex := renderMutex m; simPc := simPc m;
     simT := simT m; simActive := simActive m; renderPc := v;
     stopPc := stopPc m; joined := joined m; errLog := errLog m;
     trace := trace m; initCalls := initCalls m;
     sawRendering := sawRendering m |}.

Definition set_stopPc (v : StopPc) (m : Machine) :=
  {| dataPtr := dataPtr m; renderMutex := renderMutex m; simPc := simPc m;
     simT := simT m; simActive := simActive m; renderPc := renderPc m;
     stopPc := v; joined := joined m; errLog := errLog m;
     trace := trace m; initCalls := initCalls m;
     sawRendering := sawRendering m |}.

Definition set_joined (v : bool) (m : Machine) :=
  {| dataPtr := dataPtr m; renderMutex := renderMutex m; simPc := simPc m;
     simT := simT m; simActive := simActive m; renderPc := renderPc m;
     stopPc := stopPc m; joined := v; errLog := errLog m;
     trace := trace m; initCalls := initCalls m;
     sawRendering := sawRendering m |}.

Definition set_errLog (v : list string) (m : Machine) :=
  {| dataPtr := dataPtr m; renderMutex := renderMutex m; simPc := simPc m;
     simT := simT m; simActive := simActive m; renderPc := renderPc m;
     stopPc := stopPc m; joined := joined m; errLog := v;
     trace := trace m; initCalls := initCalls m;
     sawRendering := sawRendering m |}.

Definition emit (e : Event) (m : Machine) :=
  {| dataPtr := dataPtr m; renderMutex := renderMutex m; simPc := simPc m;
     simT := simT m; simActive := simActive m; renderPc := renderPc m;
     stopPc := stopPc m; joined := joined m; errLog := errLog m;
     trace := e :: trace m; initCalls := initCalls m;
     sawRendering := sawRendering m |}.

Definition count_init (m : Machine) :=
  {| dataPtr := dataPtr m; renderMutex := renderMutex m; simPc := simPc m;
     simT := simT m; simActive := simActive m; renderPc := renderPc m;
     stopPc := stopPc m; joined := joined m; errLog := errLog m;
     trace := trace m; initCalls := S (initCalls m);
     sawRendering := sawRendering m |}.

Definition note_rendering (v : bool) (m : Machine) :=
  {| dataPtr := dataPtr m; renderMutex := renderMutex m; simPc := simPc m;
     simT := simT m; simActive := simActive m; renderPc := renderPc m;
     stopPc := stopPc m; joined := joined m; errLog := errLog m;
     trace := trace m; initCalls := initCalls m;
     sawRendering := sawRendering m || v |}.

(** What a step of a thread comes to. *)
Inductive outcome : Type :=
| Next (m : Machine)   (* the step was taken *)
| Blocked              (* the thread cannot move in this state *)
| Fault (f : fault).   (* the step has no defined behaviour *)

(** [renderCv.notify_one()] and [notify_all()] move a waiting thread to
    the point where it takes the lock again.  The condition variable has
    two possible waiters, the simulation thread and the render thread, and
    neither notifies while it waits. *)
Definition wakeSim (pc : SimPc) : SimPc :=
  match pc with
  | P_InitWait => P_InitLock
  | P_SubmitWait => P_SubmitLock
  | _ => pc
  end.

Definition wakeRender (pc : RenderPc) : RenderPc :=
  match pc with
  | R_InitWait => R_InitWoken
  | R_LoopWait => R_LoopLock
  | _ => pc
  end.

Definition notifySim (m : Machine) : Machine := set_simPc (wakeSim (simPc m)) m.
Definition notifyRender (m : Machine) : Machine :=
  set_renderPc (wakeRender (renderPc m)) m.

(** What [CreateSensor] comes to: a returned name, or a fault together
    with the data and the log as they stand at the faulting statement. *)
Inductive CreateOutcome : Type :=
| Returned (name : string) (d : SensorsPrivate) (log : list string)
| Crashed (f : fault) (d : SensorsPrivate) (log : list string).

Section Sensors.

(** Collaborators outside this repository: the constant
    [sensors::NO_SENSOR], [sensors::Manager::CreateSensor] and
    [Manager::RunOnce], and the scene [renderUtil.Scene()] returns once
    [renderUtil.Init()] has run. *)
Variable NO_SENSOR : SensorId.
Variable managerCreateSensor : SdfSensor -> Manager -> SensorId * Manager.
Variable managerRunOnce : Time -> Manager -> Manager.
Variable renderUtilScene : option nat.

(** *** [Sensors::CreateSensor] (lines 296-324) *)

Definition failedToCreate (sdf : SdfSensor) : string :=
  ("Failed to create sensor [" ++ sdfName sdf ++ "]")%string.

Definition typeIsNone : string :=
  "Unable to create sensor. SDF sensor type is NONE."%string.

(** [nullptr == sensor || sensors::NO_SENSOR == sensor->Id()] *)
Definition creationFailed (mgr : Manager) (sensor : ptr) : bool :=
  match sensor with
  | None => true
  | Some k =>
      match mgr !! k with
      | Some o => bool_decide (NO_SENSOR = Id o)
      | None => true
      end
  end.

Definition CreateSensor (sdf : SdfSensor) (parentName : string)
    (d : SensorsPrivate) (log : list string) : CreateOutcome :=
  if bool_decide (sdfType sdf = NONE) then
    Returned EmptyString d (log ++ [typeIsNone])
  else
    let '(sensorId, mgr) := managerCreateSensor sdf (sensorManager d) in
    let sensor := managerSensor mgr sensorId in
    let d1 := set_sensorIds (set_insert sensorId (sensorIds d))
                (set_sensorManager mgr d) in
    let log1 := if creationFailed mgr sensor
                then log ++ [failedToCreate sdf] else log in
    let renderingSensor := dynamicCastRendering mgr sensor in
    match deref mgr renderingSensor with
    | Err f => Crashed f d1 log1
    | Ok o =>
        let o' := bindToScene (scene d) parentName o in
        let mgr' := match renderingSensor with
                    | Some k => <[k := o']> mgr
                    | None => mgr
                    end in
        Returned (Name o') (set_sensorManager mgr' d1) log1
    end.

(** [renderUtil.Update()] calls [CreateSensor] once for every sensor the
    scene has newly found; which ones is the caller's to say. *)
Fixpoint createSensors (found : list (SdfSensor * string))
    (d : SensorsPrivate) (log : list string) : CreateOutcome :=
  match found with
  | [] => Returned EmptyString d log
  | (sdf, parentName) :: rest =>
      match CreateSensor sdf parentName d log with
      | Returned _ d' log' => createSensors rest d' log'
      | Crashed f d' log' => Crashed f d' log'
      end
  end.

(** *** [Sensors::PostUpdate] on the simulation thread (lines 216-293) *)

(** The call itself, up to the test of line 221.  [t] is
    [_info.simTime]; [hasRendering] is the disjunction of the four
    [_ecm.HasComponentType] tests. *)
Definition postUpdate (t : Time) (hasRendering : bool) (m : Machine)
  : outcome :=
  match simPc m with
  | P_Idle =>
      let m1 := note_rendering hasRendering (set_simLocals t [] m) in
      if negb (initialized (dataPtr m)) && hasRendering
      then Next (set_simPc P_InitLock m1)
      else Next (set_simPc P_Gate m1)
  | _ => Blocked
  end.

(** The predicate of both waits of [PostUpdate]. *)
Definition simMayProceed (d : SensorsPrivate) : bool :=
  negb (running d) || negb (updateAvailable d).

(** The next step of the simulation thread inside [PostUpdate].
    [pending] is what [renderUtil.PendingSensors()] returns at line 274. *)
Definition simStep (pending : nat) (m : Machine) : outcome :=
  let d := dataPtr m in
  match simPc m with
  | P_Idle => Blocked
  | P_InitLock =>
      (* lines 228-232 *)
      if renderMutex m then Blocked
      else if simMayProceed d
      then Next (set_simPc P_InitNotify
                   (emit EvInitRequest (set_data (set_doInit true d) m)))
      else Next (set_simPc P_InitWait m)
  | P_InitWait => Blocked
  | P_InitNotify =>
      (* line 233 *)
      Next (set_simPc P_Gate (notifyRender m))
  | P_Gate =>
      (* line 237 *)
      if running d && initialized d
      then Next (set_simPc P_Select m)
      else Next (set_simPc P_Idle m)
  | P_Select =>
      (* lines 239-274 *)
      match selectSensors (simT m) d with
      | Err f => Fault f
      | Ok (mask, active) =>
          let m1 := set_simLocals (simT m) active
                      (set_data (set_sensorMask mask d) m) in
          if negb (bool_decide (active = [])) || bool_decide (0 < pending)%nat
          then Next (set_simPc P_SubmitLock m1)
          else Next (set_simPc P_Idle m1)
      end
  | P_SubmitLock =>
      (* lines 278-291 *)
      if renderMutex m then Blocked
      else if simMayProceed d
      then
        if negb (running d) then Next (set_simPc P_Idle m)
        else
          Next (set_simPc P_Idle
                  (notifyRender
                     (emit (EvSubmit (simT m) (simActive m))
                        (set_data (installCycle (simT m) (simActive m) d)
                           m))))
      else Next (set_simPc P_SubmitWait m)
  | P_SubmitWait => Blocked
  end.

(** *** [Sensors::RunLoop] on the render thread (lines 111-191) *)

(** The body of the first loop after the wait (lines 120-131). *)
Definition initBody (m : Machine) : Machine :=
  let d := dataPtr m in
  let m1 := if doInit d
            then emit EvInit
                   (count_init (set_data (set_initialized renderUtilScene d) m))
            else m in
  notifySim (set_data (set_updateAvailable false (dataPtr m1)) m1).

(** The next step of the render thread.  [found] are the sensors for
    which [renderUtil.Update()] calls [CreateSensor] at line 152. *)
Definition renderStep (found : list (SdfSensor * string)) (m : Machine)
  : outcome :=
  let d := dataPtr m in
  match renderPc m with
  | R_InitCheck =>
      (* line 114 *)
      if negb (initialized d) && running d
      then Next (set_renderPc R_InitLock m)
      else Next (set_renderPc R_LoopCheck m)
  | R_InitLock =>
      (* lines 117-118: lock, then wait gives the lock back *)
      if renderMutex m then Blocked
      else Next (set_renderPc R_InitWait m)
  | R_InitWait => Blocked
  | R_InitWoken =>
      (* lines 118-131, the lock taken again and given back at the end *)
      if renderMutex m then Blocked
      else Next (set_renderPc R_InitCheck (initBody m))
  | R_LoopCheck =>
      (* line 135 *)
      if running d
      then Next (set_renderPc R_LoopLock m)
      else Next (set_renderPc R_Done m)
  | R_LoopLock =>
      (* lines 138-153 *)
      if renderMutex m then Blocked
      else if negb (running d) || updateAvailable d
      then
        if negb (running d) then Next (set_renderPc R_Done m)
        else
          match createSensors found d (errLog m) with
          | Crashed f _ _ => Fault f
          | Returned _ d' log' =>
              Next (set_renderPc R_LoopMask
                      (emit (EvTake (updateTime d) (activeSensors d))
                         (set_mutex true
                            (set_errLog log' (set_data d' m)))))
          end
      else Next (set_renderPc R_LoopWait m)
  | R_LoopWait => Blocked
  | R_LoopMask =>
      (* lines 155-169 *)
      if bool_decide (activeSensors d = [])
      then Next (set_renderPc R_LoopRender m)
      else
        match maskActive (updateTime d) (sensorManager d)
                (activeSensors d) (sensorMask d) with
        | Err f => Fault f
        | Ok mask =>
            Next (set_renderPc R_LoopRender
                    (set_data (set_sensorMask mask d) m))
        end
  | R_LoopRender =>
      (* lines 171-187 *)
      let d1 := if bool_decide (activeSensors d = []) then d
                else set_sensorManager
                       (managerRunOnce (updateTime d) (sensorManager d)) d in
      Next (set_renderPc R_LoopNotify
              (emit EvComplete
                 (set_mutex false (set_data (finishCycle d1) m))))
  | R_LoopNotify =>
      (* line 188 *)
      Next (set_renderPc R_LoopCheck (notifySim m))
  | R_Done => Blocked
  end.

(** *** [Sensors::Stop] (lines 96-108) *)

(** A call of [Stop] through its critical section (lines 99-101). *)
Definition stopCall (m : Machine) : outcome :=
  match stopPc m with
  | S_Idle =>
      if renderMutex m then Blocked
      else Next (set_stopPc S_Notify
                   (emit EvStop
                      (set_data (set_running false (dataPtr m)) m)))
  | _ => Blocked
  end.

(** The rest of [Stop]: [notify_all], then the join, which returns only
    once [RunLoop] has returned. *)
Definition stopStep (m : Machine) : outcome :=
  match stopPc m with
  | S_Idle => Blocked
  | S_Notify => Next (set_stopPc S_Join (notifyRender (notifySim m)))
  | S_Join =>
      if joined m then Next (set_stopPc S_Idle m)
      else if bool_decide (renderPc m = R_Done)
      then Next (set_stopPc S_Idle (set_joined true m))
      else Blocked
  end.

(** *** The interleaving *)

Inductive action : Type :=
| PostUpdate (t : Time) (hasRendering : bool)
| Sim (pending : nat)
| Render (found : list (SdfSensor * string))
| StopCall
| StopStep
| SpuriousSim        (* a wait of the simulation thread returns unnotified *)
| SpuriousRender.    (* a wait of the render thread returns unnotified *)

Definition exec (a : action) (m : Machine) : outcome :=
  match a with
  | PostUpdate t hasRendering => postUpdate t hasRendering m
  | Sim pending => simStep pending m
  | Render found => renderStep found m
  | StopCall => stopCall m
  | StopStep => stopStep m
  | SpuriousSim =>
      if bool_decide (wakeSim (simPc m) = simPc m) then Blocked
      else Next (notifySim m)
  | SpuriousRender =>
      if bool_decide (wakeRender (renderPc m) = renderPc m) then Blocked
      else Next (notifyRender m)
  end.

Fixpoint run (sched : list action) (m : Machine) : outcome :=
  match sched with
  | [] => Next m
  | a :: rest =>
      match exec a m with
      | Next m' => run rest m'
      | o => o
      end
  end.

(** The state [Sensors::Configure] leaves: [running] is set and the
    render thread is at the top of [RunLoop]. *)
Definition configured : Machine :=
  {| dataPtr :=
       {| sensorManager := ∅; initialized := false; sensorIds := [];
          scene := None; running := true; doInit := false;
          updateAvailable := false; updateTime := 0%Q;
          activeSensors := []; sensorMask := ∅ |};
     renderMutex := false; simPc := P_Idle; simT := 0%Q; simActive := [];
     renderPc := R_InitCheck; stopPc := S_Idle; joined := false;
     errLog := []; trace := []; initCalls := 0; sawRendering := false |}.

Definition reachable (m : Machine) : Prop :=
  exists sched, run sched configured = Next m.

(** *** The hand-off slot, read off the trace *)

(** The single slot between the threads: empty, holding a submitted
    cycle, or holding a cycle the worker is busy with. *)
Inductive Slot : Type :=
| SlotEmpty
| SlotFull (t : Time) (sel : list SensorId)
| SlotTaken (t : Time) (sel : list SensorId).

(** One event against the slot.  [None] is a breach of single flight: a
    submission into a slot that is not empty, a take from a slot that
    holds no submitted cycle or of another cycle than the submitted one,
    a completion with nothing taken. *)
Definition slotStep (s : Slot) (e : Event) : option Slot :=
  match e, s with
  | EvSubmit t sel, SlotEmpty => Some (SlotFull t sel)
  | EvSubmit _ _, _ => None
  | EvTake t sel, SlotFull t' sel' =>
      if bool_decide (t = t' ∧ sel = sel') then Some (SlotTaken t sel)
      else None
  | EvTake _ _, _ => None
  | EvComplete, SlotTaken _ _ => Some SlotEmpty
  | EvComplete, _ => None
  | _, _ => Some s
  end.

(** The slot after a whole trace (newest event first). *)
Fixpoint slotAfter (tr : list Event) : option Slot :=
  match tr with
  | [] => Some SlotEmpty
  | e :: older => s ← slotAfter older; slotStep s e
  end.

Definition isSubmit (e : Event) : bool :=
  match e with EvSubmit _ _ => true | _ => false end.
Definition isTake (e : Event) : bool :=
  match e with EvTake _ _ => true | _ => false end.
Definition isInit (e : Event) : bool :=
  match e with EvInit => true | _ => false end.

Definition countEv (p : Event -> bool) (tr : list Event) : nat :=
  length (filter (fun e => p e = true) tr).

(** Every submission and every take in the trace has an [EvInit] before
    it (that is, further down the list). *)
Fixpoint initFirst (tr : list Event) : bool :=
  match tr with
  | [] => true
  | e :: older =>
      (if isSubmit e || isTake e then existsb isInit older else true)
      && initFirst older
  end.

(** *** Regions of the two programs *)

Definition renderHoldsLock (pc : RenderPc) : bool :=
  match pc with R_LoopMask | R_LoopRender => true | _ => false end.

Definition renderInInitLoop (pc : RenderPc) : bool :=
  match pc with R_InitLock | R_InitWait | R_InitWoken => true | _ => false end.

Definition renderInCycleLoop (pc : RenderPc) : bool :=
  match pc with
  | R_LoopLock | R_LoopWait | R_LoopMask | R_LoopRender | R_LoopNotify => true
  | _ => false
  end.

Definition simPastGate (pc : SimPc) : bool :=
  match pc with P_Select | P_SubmitLock | P_SubmitWait => true | _ => false end.

Definition simInInitRequest (pc : SimPc) : bool :=
  match pc with P_InitLock | P_InitWait | P_InitNotify => true | _ => false end.

(** The slot as the shared data show it. *)
Definition slotNow (m : Machine) : Slot :=
  let d := dataPtr m in
  if updateAvailable d then
    if renderHoldsLock (renderPc m)
    then SlotTaken (updateTime d) (activeSensors d)
    else SlotFull (updateTime d) (activeSensors d)
  else SlotEmpty.

(** *** The invariant of the machine *)

Record Inv (m : Machine) : Prop := {
  inv_mutex : renderMutex m = renderHoldsLock (renderPc m);
  inv_init_loop :
    renderInInitLoop (renderPc m) = true ->
    initialized (dataPtr m) = false;
  inv_loop_check :
    renderPc m = R_LoopCheck ->
    initialized (dataPtr m) || negb (running (dataPtr m)) = true;
  inv_cycle_loop :
    renderInCycleLoop (renderPc m) = true ->
    initialized (dataPtr m) = true;
  inv_holding :
    renderHoldsLock (renderPc m) = true ->
    running (dataPtr m) && updateAvailable (dataPtr m) = true;
  inv_done : renderPc m = R_Done -> running (dataPtr m) = false;
  inv_avail :
    updateAvailable (dataPtr m) = true -> initialized (dataPtr m) = true;
  inv_gate :
    simPastGate (simPc m) = true -> initialized (dataPtr m) = true;
  inv_calls :
    initCalls m = if initialized (dataPtr m) then 1%nat else 0%nat;
  inv_doInit : doInit (dataPtr m) = true -> sawRendering m = true;
  inv_request :
    simInInitRequest (simPc m) = true -> sawRendering m = true;
  inv_initialized :
    initialized (dataPtr m) = true -> doInit (dataPtr m) = true;
  inv_slot : slotAfter (trace m) = Some (slotNow m);
  inv_first : initFirst (trace m) = true;
  inv_init_event :
    initialized (dataPtr m) = existsb isInit (trace m)
}.

(** [CreateSensor] touches the manager, the registry and the log, and
    nothing of the hand-off. *)
Definition sameControl (d d' : SensorsPrivate) : Prop :=
  initialized d' = initialized d /\ running d' = running d /\
  doInit d' = doInit d /\ updateAvailable d' = updateAvailable d /\
  updateTime d' = updateTime d /\ activeSensors d' = activeSensors d /\
  sensorMask d' = sensorMask d /\ scene d' = scene d.

(** *** The selection loop in closed form *)

(** The mask suppresses [id] at [t]: an entry still in the future. *)
Definition suppressed (t : Time) (mask : gmap SensorId Time) (id : SensorId)
  : bool :=
  match mask !! id with
  | Some until => negb (Qle_bool until t)
  | None => false
  end.

(** [id] names a rendering sensor whose next update is due at [t]. *)
Definition dueRendering (t : Time) (mgr : Manager) (id : SensorId) : bool :=
  match mgr !! id with
  | Some o => isRendering o && Qle_bool (NextUpdateTime o) t
  | None => false
  end.

Definition selects (t : Time) (mgr : Manager) (mask : gmap SensorId Time)
    (id : SensorId) : bool :=
  negb (suppressed t mask id) && dueRendering t mgr id.

(** What one iteration does to the mask: an expired entry goes. *)
Definition expireOne (t : Time) (mask : gmap SensorId Time) (id : SensorId)
  : gmap SensorId Time :=
  match mask !! id with
  | Some until => if Qle_bool until t then delete id mask else mask
  | None => mask
  end.

(** Every object reports the key it is kept under as its [Id()]. *)
Definition coherent (mgr : Manager) : Prop :=
  map_Forall (fun k o => Id o = k) mgr.

(** The same object with another update rate. *)
Definition withRate (f : Q -> Q) (o : SensorObj) : SensorObj :=
  {| Id := Id o; Name := Name o; UpdateRate := f (UpdateRate o);
     NextUpdateTime := NextUpdateTime o; isRendering := isRendering o;
     sensorScene := sensorScene o; sensorParent := sensorParent o;
     manualSceneUpdate := manualSceneUpdate o |}.

(** The schedule on which [Stop] loses its wake-up: the render thread
    passes the test of line 114, [Stop] runs its critical section and
    [notify_all], and only then does the render thread reach the wait of
    line 118. *)
Definition lostWakeup : list action :=
  [Render []; StopCall; StopStep; Render []].

(** Actions that cannot get a render thread out of the wait of line 118 by
    themselves: anything but a spurious return of that wait and a
    [PostUpdate] that sees a rendering component. *)
Definition quiet (a : action) : bool :=
  match a with
  | SpuriousRender => false
  | PostUpdate _ hasRendering => negb hasRendering
  | _ => true
  end.

(** The render thread sleeps in the wait of line 118 after [running] was
    cleared, [Stop] stands at its join, and the simulation thread is
    outside [PostUpdate] or at its gate. *)
Definition stuck (m : Machine) : Prop :=
  renderPc m = R_InitWait /\ stopPc m = S_Join /\ joined m = false /\
  running (dataPtr m) = false /\ (simPc m = P_Idle \/ simPc m = P_Gate).

(** A first [PostUpdate] that sees a rendering component while the render
    thread already waits at line 118, run to its return. *)
Definition firstRequest : list action :=
  [Render []; Render []; PostUpdate 0%Q true; Sim 0; Sim 0; Sim 0].

(** *** Collaborators and schedules to run the machine on *)

(** The identifier after the largest one in use. *)
Definition nextId (mgr : Manager) : SensorId :=
  N.succ (map_fold (fun k _ acc => N.max k acc) 0%N mgr).

(** A sensor manager in the manner of ign-sensors': a created sensor gets
    the next free identifier, its rate from the descriptor and a first
    update due at time 0; cameras and lidars are rendering sensors. *)
Definition stubCreateSensor (sdf : SdfSensor) (mgr : Manager)
  : SensorId * Manager :=
  let id := nextId mgr in
  (id,
   <[id := {| Id := id; Name := sdfName sdf;
              UpdateRate := sdfUpdateRate sdf; NextUpdateTime := 0%Q;
              isRendering := match sdfType sdf with
                             | CAMERA | DEPTH_CAMERA | GPU_LIDAR
                             | RGBD_CAMERA => true
                             | _ => false
                             end;
              sensorScene := None; sensorParent := EmptyString;
              manualSceneUpdate := false |}]> mgr).

(** A manager whose creation fails: it returns identifier 0 and keeps no
    object under it. *)
Definition failingCreateSensor (sdf : SdfSensor) (mgr : Manager)
  : SensorId * Manager :=
  (0%N, mgr).

(** [RunOnce] in the manner of ign-sensors': a sensor that is due is
    updated and its next update put one period later. *)
Definition stubRunOnce (t : Time) (mgr : Manager) : Manager :=
  (fun o =>
     if Qle_bool (NextUpdateTime o) t && negb (Qeq_bool (UpdateRate o) 0)
     then {| Id := Id o; Name := Name o; UpdateRate := UpdateRate o;
             NextUpdateTime := (NextUpdateTime o + 1 / UpdateRate o)%Q;
             isRendering := isRendering o; sensorScene := sensorScene o;
             sensorParent := sensorParent o;
             manualSceneUpdate := manualSceneUpdate o |}
     else o) <$> mgr.

Definition camera (rate : Q) : SdfSensor :=
  {| sdfType := CAMERA; sdfName := "camera"; sdfUpdateRate := rate |}.

(** The machine a schedule ends in ([configured] when it does not end). *)
Definition stateOf (o : outcome) : Machine :=
  match o with
  | Next m => m
  | _ => configured
  end.

(** Start-up: the render thread goes to the wait of line 118, a first
    [PostUpdate] requests initialization, the render thread initializes
    and goes to sleep in the wait of line 139. *)
Definition startUp : list action :=
  firstRequest ++ [Render []; Render []; Render []; Render []].

(** A cycle with nothing selected but a sensor pending, in which
    [renderUtil.Update()] creates the sensor [sdf]; the render thread ends
    asleep in the wait of line 139 again. *)
Definition createCycle (sdf : SdfSensor) : list action :=
  [PostUpdate 0%Q true; Sim 0; Sim 1; Sim 0;
   Render [(sdf, "link"%string)]; Render []; Render []; Render []; Render [];
   Render []].

(** A [PostUpdate] at [t] up to and including its selection loop. *)
Definition selectAt (t : Time) : list action :=
  [PostUpdate t true; Sim 0; Sim 0].

(** Two steps one millisecond apart with the render thread not yet
    scheduled in between: the first selects and submits, the second
    selects. *)
Definition twoSteps (rate : Q) : list action :=
  startUp ++ createCycle (camera rate) ++
  selectAt 1%Q ++ [Sim 0] ++ selectAt (1001 # 1000)%Q.

(** The same run carried on until the worker has taken both cycles. *)
Definition twoCycles (rate : Q) : list action :=
  twoSteps rate ++
  [Sim 0; Render []; Render []; Render []; Render []; Sim 0;
   Render []; Render []].

(** One step that selects and submits, and the worker taking the cycle. *)
Definition oneCycleTaken (rate : Q) : list action :=
  startUp ++ createCycle (camera rate) ++
  selectAt 1%Q ++ [Sim 0; Render []].

(** Three cameras: the first masked until 7, the second until 3, the
    third not masked. *)
Definition maskedData : SensorsPrivate :=
  let cam id :=
    {| Id := id; Name := "camera"; UpdateRate := 10%Q;
       NextUpdateTime := 0%Q; isRendering := true;
       sensorScene := Some 1%nat; sensorParent := "link";
       manualSceneUpdate := true |} in
  {| sensorManager := <[1%N := cam 1%N]> (<[2%N := cam 2%N]> {[ 3%N := cam 3%N ]});
     initialized := true; sensorIds := [1%N; 2%N; 3%N]; scene := Some 1%nat;
     running := true; doInit := true; updateAvailable := false;
     updateTime := 0%Q; activeSensors := [];
     sensorMask := <[1%N := 7%Q]> {[ 2%N := 3%Q ]} |}.

(** *** The two threads against each other *)

(** The render thread is neither asleep, nor about to sleep in the first
    loop, nor gone: it is on its way through the cycle loop. *)
Definition renderServing (pc : RenderPc) : bool :=
  match pc with
  | R_InitCheck | R_LoopCheck | R_LoopLock | R_LoopMask | R_LoopRender
  | R_LoopNotify => true
  | _ => false
  end.

(** How the two threads and [Stop] stand to each other. *)
Record Sync (m : Machine) : Prop := {
  sync_request :
    simInInitRequest (simPc m) = true ->
    updateAvailable (dataPtr m) = false;
  sync_no_init_wait : simPc m <> P_InitWait;
  sync_outstanding :
    updateAvailable (dataPtr m) = true -> running (dataPtr m) = true ->
    renderServing (renderPc m) = true;
  sync_sleeping :
    simPc m = P_SubmitWait -> running (dataPtr m) = true ->
    updateAvailable (dataPtr m) = true \/ renderPc m = R_LoopNotify;
  sync_joined : joined m = true -> renderPc m = R_Done;
  sync_stop : stopPc m <> S_Idle -> running (dataPtr m) = false
}.



(** A run of the render thread alone, [n] steps long, in which
    [renderUtil.Update()] finds nothing to create. *)
Definition renderAlone (n : nat) : list action := replicate n (Render []).




(** The manager function [f] keeps every rendering sensor it holds: the
    object stays under its key and stays a rendering sensor. *)
Definition keepsRendering (f : Manager -> Manager) : Prop :=
  forall mgr k o,
    mgr !! k = Some o -> isRendering o = true ->
    exists o', f mgr !! k = Some o' /\ isRendering o' = true.

(** Every registered identifier names a rendering sensor. *)
Definition registryRendering (d : SensorsPrivate) : Prop :=
  forall id,
    id ∈ sensorIds d ->
    exists o, sensorManager d !! id = Some o /\ isRendering o = true.

Lemma sameControl_refl d : sameControl d d.
Proof. repeat split. Qed.

Lemma CreateSensor_control sdf parent d log :
  match CreateSensor sdf parent d log with
  | Returned _ d' _ | Crashed _ d' _ => sameControl d d'
  end.
Proof.
  unfold CreateSensor.
  destruct (bool_decide (sdfType sdf = NONE)); [apply sameControl_refl|].
  destruct (managerCreateSensor sdf (sensorManager d)) as [sid mgr].
  destruct (deref mgr _); repeat split.
Qed.

Lemma createSensors_control found : forall d log,
  match createSensors found d log with
  | Returned _ d' _ | Crashed _ d' _ => sameControl d d'
  end.
Proof.
  induction found as [|[sdf parent] rest IH]; intros d log; simpl.
  - apply sameControl_refl.
  - pose proof (CreateSensor_control sdf parent d log) as H1.
    destruct (CreateSensor sdf parent d log) as [n d1 l1|f d1 l1]; [|exact H1].
    specialize (IH d1 l1).
    destruct (createSensors rest d1 l1) as [n2 d2 l2|f2 d2 l2];
      unfold sameControl in *; intuition congruence.
Qed.


Ltac break_state m :=
  destruct m as [[mgr ini ids sc run doI upd ut act mask]
                   mu sp st sa rp kp j lg tr ic sr].

Lemma wakeRender_holds pc : renderHoldsLock (wakeRender pc) = renderHoldsLock pc.
Proof. by destruct pc. Qed.
Lemma wakeRender_init pc : renderInInitLoop (wakeRender pc) = renderInInitLoop pc.
Proof. by destruct pc. Qed.
Lemma wakeRender_cycle pc : renderInCycleLoop (wakeRender pc) = renderInCycleLoop pc.
Proof. by destruct pc. Qed.
Lemma wakeRender_check pc : wakeRender pc = R_LoopCheck -> pc = R_LoopCheck.
Proof. by destruct pc. Qed.
Lemma wakeRender_done pc : wakeRender pc = R_Done -> pc = R_Done.
Proof. by destruct pc. Qed.
Lemma wakeSim_gate pc : simPastGate (wakeSim pc) = simPastGate pc.
Proof. by destruct pc. Qed.
Lemma wakeSim_request pc : simInInitRequest (wakeSim pc) = simInInitRequest pc.
Proof. by destruct pc. Qed.


Ltac inv_field :=
  unfold slotNow, notifyRender, notifySim in *; simpl in *;
  rewrite ?wakeRender_holds, ?wakeRender_init, ?wakeRender_cycle,
    ?wakeSim_gate, ?wakeSim_request in *;
  repeat match goal with
    | H : false = renderHoldsLock _ |- _ => rewrite <- H in *
    | H : slotAfter _ = _ |- _ => rewrite H; clear H
    | H : _ = existsb isInit _ |- _ => rewrite <- H in *
    | H : initFirst _ = _ |- _ => rewrite H
    | H : wakeRender _ = R_LoopCheck |- _ => apply wakeRender_check in H
    | H : wakeRender _ = R_Done |- _ => apply wakeRender_done in H
    end;
  simpl in *;
  try solve [ auto | congruence | intuition congruence
            | rewrite bool_decide_true by (split; reflexivity); reflexivity
            | rewrite ?andb_true_r, ?orb_true_r, ?orb_false_r in *;
              intuition congruence
            | let Hw := fresh in
              intros Hw;
              (apply wakeRender_check in Hw || apply wakeRender_done in Hw);
              auto ].

Ltac step_cases Hs :=
  repeat (match type of Hs with
          | context [if ?b then _ else _] => destruct b eqn:?
          end; simpl in Hs);
  try discriminate.

Lemma inv_simStep pending m m' : Inv m -> simStep pending m = Next m' -> Inv m'.
Proof.
  intros HI Hs. break_state m. destruct HI. unfold simStep, simMayProceed in Hs.
  simpl in *.
  destruct sp; simpl in *; try discriminate.
  - destruct mu, run, upd; simpl in *; try discriminate; injection Hs as <-; split; inv_field.
  - injection Hs as <-; split; inv_field.
  - destruct run, ini;  simpl in *; injection Hs as <-; split; inv_field.
  - destruct (selectSensors _ _) as [[mask' active]|]; try discriminate.
    step_cases Hs; injection Hs as <-; split; inv_field.
  - destruct mu, run, upd; simpl in *; try discriminate; injection Hs as <-; split; inv_field.
Qed.

Lemma inv_postUpdate t hasR m m' : Inv m -> postUpdate t hasR m = Next m' -> Inv m'.
Proof.
  intros HI Hs. break_state m. destruct HI. unfold postUpdate in Hs.
  simpl in *.
  destruct sp; simpl in *; try discriminate.
  destruct ini, hasR; simpl in *; injection Hs as <-; split; inv_field.
  all: destruct sr; auto.
Qed.

Lemma inv_stopCall m m' : Inv m -> stopCall m = Next m' -> Inv m'.
Proof.
  intros HI Hs. break_state m. destruct HI. unfold stopCall in Hs.
  simpl in *.
  destruct kp; simpl in *; try discriminate.
  destruct mu; simpl in *; try discriminate; injection Hs as <-; split; inv_field.
  all: try (destruct ini; auto; fail).
Qed.

Lemma inv_stopStep m m' : Inv m -> stopStep m = Next m' -> Inv m'.
Proof.
  intros HI Hs. break_state m. destruct HI. unfold stopStep in Hs.
  simpl in *.
  destruct kp; simpl in *; try discriminate.
  - injection Hs as <-; split; inv_field.
  - step_cases Hs; injection Hs as <-; split; inv_field.
Qed.

Lemma inv_renderStep found m m' : Inv m -> renderStep found m = Next m' -> Inv m'.
Proof.
  intros HI Hs. break_state m. destruct HI. unfold renderStep in Hs.
  simpl in *.
  destruct rp; simpl in *; try discriminate.
  - destruct ini, run; simpl in *; injection Hs as <-; split; inv_field.
  - destruct mu; simpl in *; try discriminate; injection Hs as <-; split; inv_field.
  - destruct mu; simpl in *; try discriminate; injection Hs as <-.
    assert (ini = false) as -> by auto.
    assert (upd = false) as ->
      by (destruct upd; [specialize (inv_avail0 eq_refl); discriminate | reflexivity]).
    unfold initBody; simpl. destruct doI; simpl; split; inv_field.
  - destruct run; simpl in *; injection Hs as <-; split; inv_field.
  - destruct mu; simpl in *; try discriminate.
    destruct run, upd; simpl in *; try discriminate;
      try (injection Hs as <-; split; inv_field; fail).
    pose proof (createSensors_control found
      {| sensorManager := mgr; initialized := ini; sensorIds := ids;
         scene := sc; running := true; doInit := doI;
         updateAvailable := true; updateTime := ut; activeSensors := act;
         sensorMask := mask |} lg) as Hc.
    destruct (createSensors _ _ _) as [n d' lg'|]; try discriminate.
    destruct d' as [mgr' ini' ids' sc' run' doI' upd' ut' act' mask'].
    unfold sameControl in Hc; simpl in Hc.
    destruct Hc as (-> & -> & -> & -> & -> & -> & -> & ->).
    injection Hs as <-; split; inv_field.
  - destruct (bool_decide (act = [])); simpl in *.
    + injection Hs as <-; split; inv_field.
    + destruct (maskActive _ _ _ _); try discriminate.
      injection Hs as <-; split; inv_field.
  - specialize (inv_holding0 eq_refl). destruct run, upd; try discriminate.
    destruct (bool_decide (act = [])); simpl in *;
      injection Hs as <-; split; inv_field.
  - specialize (inv_cycle_loop0 eq_refl). subst ini.
    injection Hs as <-; split; inv_field.
Qed.

Lemma inv_exec a m m' : Inv m -> exec a m = Next m' -> Inv m'.
Proof.
  destruct a; simpl.
  - apply inv_postUpdate.
  - apply inv_simStep.
  - apply inv_renderStep.
  - apply inv_stopCall.
  - apply inv_stopStep.
  - case_bool_decide; [discriminate|]. intros HI [= <-].
    break_state m. destruct HI. split; inv_field.
  - case_bool_decide; [discriminate|]. intros HI [= <-].
    break_state m. destruct HI. split; inv_field.
Qed.

Lemma inv_configured : Inv configured.
Proof. split; simpl; auto; discriminate. Qed.

Lemma inv_run sched : forall m m', Inv m -> run sched m = Next m' -> Inv m'.
Proof.
  induction sched as [|a rest IH]; simpl; intros m m' HI Hr.
  - by injection Hr as <-.
  - destruct (exec a m) as [m1| |] eqn:He; try discriminate.
    eapply IH; [eapply inv_exec|]; eauto.
Qed.

Lemma inv_reachable m : reachable m -> Inv m.
Proof. intros [sched Hr]. eapply inv_run; [apply inv_configured | exact Hr]. Qed.

(** *** The second invariant *)

Ltac sync_field :=
  unfold notifyRender, notifySim in *; simpl in *;
  repeat match goal with
    | H : ?x = ?x -> _ |- _ => specialize (H eq_refl)
    | H : ?b = true -> _, H' : ?b = true |- _ => specialize (H H')
    | H : bool_decide _ = true |- _ => apply bool_decide_eq_true in H
    end;
  try solve [ auto | congruence | discriminate | intuition congruence
            | intros; exfalso; intuition congruence
            | intros; intuition (try congruence; try discriminate) ].

Lemma sync_configured : Sync configured.
Proof. split; simpl; auto; try discriminate; congruence. Qed.

Lemma sync_exec a m m' : Inv m -> Sync m -> exec a m = Next m' -> Sync m'.
Proof.
  intros HI HS He. break_state m. destruct HI, HS. simpl in *.
  destruct a; simpl in He.
  - unfold postUpdate in He; simpl in He. destruct sp; try discriminate.
    destruct ini, hasRendering, upd; simpl in *; injection He as <-;
      split; sync_field.
  - unfold simStep, simMayProceed in He; simpl in He.
    destruct sp; try discriminate;
      try destruct (selectSensors _ _) as [[mask' active]|];
      try discriminate.
    + destruct mu, run, upd; simpl in *; try discriminate;
        injection He as <-; split; sync_field.
    + injection He as <-; split; sync_field.
      all: destruct rp; simpl in *; sync_field.
    + destruct run, ini; simpl in *; injection He as <-; split; sync_field.
    + step_cases He; injection He as <-; split; sync_field.
    + destruct mu, run, upd; simpl in *; try discriminate;
        injection He as <-; split; sync_field.
      all: destruct rp; simpl in *; sync_field.
  - unfold renderStep in He; simpl in He.
    destruct rp; try discriminate.
    + destruct ini, run; simpl in *; injection He as <-; split; sync_field.
    + destruct mu; simpl in *; try discriminate; injection He as <-;
        split; sync_field.
    + destruct mu; simpl in *; try discriminate; injection He as <-.
      unfold initBody; simpl. destruct doI; simpl; split; sync_field.
      all: destruct sp; simpl in *; sync_field.
    + destruct run; simpl in *; injection He as <-; split; sync_field.
    + destruct mu; simpl in *; try discriminate.
      destruct run, upd; simpl in *; try discriminate;
        try (injection He as <-; split; sync_field; fail).
      pose proof (createSensors_control found
        {| sensorManager := mgr; initialized := ini; sensorIds := ids;
           scene := sc; running := true; doInit := doI;
           updateAvailable := true; updateTime := ut; activeSensors := act;
           sensorMask := mask |} lg) as Hc.
      destruct (createSensors _ _ _) as [n d' lg'|]; try discriminate.
      destruct d' as [mgr' ini' ids' sc' run' doI' upd' ut' act' mask'].
      unfold sameControl in Hc; simpl in Hc.
      destruct Hc as (-> & -> & -> & -> & -> & -> & -> & ->).
      injection He as <-; split; sync_field.
    + destruct (bool_decide (act = [])); simpl in *;
        [|destruct (maskActive _ _ _ _); try discriminate];
        injection He as <-; split; sync_field.
    + destruct (bool_decide (act = [])); simpl in *;
        injection He as <-; split; sync_field.
    + injection He as <-; split; sync_field.
      all: destruct sp; simpl in *; sync_field.
  - unfold stopCall in He; simpl in He. destruct kp; try discriminate.
    destruct mu; simpl in *; try discriminate; injection He as <-;
      split; sync_field.
  - unfold stopStep in He; simpl in He. destruct kp; try discriminate.
    + injection He as <-; split; sync_field.
      all: try (destruct sp; simpl in *; sync_field).
      all: try (destruct rp; simpl in *; sync_field).
    + step_cases He; injection He as <-; split; sync_field.
  - step_cases He. injection He as <-. split; sync_field.
    all: destruct sp; simpl in *; sync_field.
  - step_cases He. injection He as <-. split; sync_field.
    all: destruct rp; simpl in *; sync_field.
Qed.

Lemma both_run sched : forall m m',
  Inv m -> Sync m -> run sched m = Next m' -> Inv m' /\ Sync m'.
Proof.
  induction sched as [|a rest IH]; simpl; intros m m' HI HS Hr.
  - injection Hr as <-. by split.
  - destruct (exec a m) as [m1| |] eqn:He; try discriminate.
    apply (IH m1 m'); eauto using inv_exec, sync_exec.
Qed.

Lemma both_reachable m : reachable m -> Inv m /\ Sync m.
Proof.
  intros [sched Hr].
  eapply both_run; [apply inv_configured | apply sync_configured | exact Hr].
Qed.

(** *** Single flight *)
















(** *** Initialization *)

(** C9. Init before cycle.  In every state the machine reaches: every
    submission and every take in the trace has a completed initialization
    before it; a cycle is outstanding only when [initialized] is set; the
    render thread is inside its cycle loop, and the simulation thread past
    the gate of line 237, only when [initialized] is set; and [initialized]
    is set exactly when the trace holds a completed initialization. *)
Theorem init_before_cycle m :
  reachable m ->
  initFirst (trace m) = true /\
  (updateAvailable (dataPtr m) = true -> initialized (dataPtr m) = true) /\
  (renderInCycleLoop (renderPc m) = true -> initialized (dataPtr m) = true) /\
  (simPastGate (simPc m) = true -> initialized (dataPtr m) = true) /\
  initialized (dataPtr m) = existsb isInit (trace m).
Proof.
  intros Hr. destruct (inv_reachable m Hr). auto.
Qed.

(** C8. Lazy one-time initialization.  In every state the machine reaches,
    [renderUtil.Init()] has been called at most once, exactly when
    [initialized] is set, and only if some [PostUpdate] saw a
    rendering-capable component; on a run where none did it has not been
    called. *)
Theorem lazy_single_init m :
  reachable m ->
  (initCalls m <= 1)%nat /\
  initCalls m = (if initialized (dataPtr m) then 1 else 0)%nat /\
  (initCalls m = 1%nat -> sawRendering m = true) /\
  (sawRendering m = false -> initCalls m = 0%nat).
Proof.
  intros Hr. destruct (inv_reachable m Hr) as [].
  destruct (initialized (dataPtr m)) eqn:Hi; rewrite inv_calls0.
  - specialize (inv_initialized0 eq_refl). specialize (inv_doInit0 inv_initialized0).
    repeat split; auto. intros; congruence.
  - repeat split; auto. discriminate.
Qed.

(** C3, as the code has it.  The initialization request does not wait
    for the render worker: from the request point, with initialization
    still to come, three steps of the simulation thread alone set
    [doInit], notify the render worker (a worker asleep in the wait of
    line 118 is woken, any other is left where it is) and return from
    [PostUpdate], with [initialized] still unset and [renderUtil.Init()]
    not yet called, so that the next [PostUpdate] can start before the
    scene exists; the woken worker initializes in its next step.  What
    holds instead of the wait is the gate of line 237: the simulation
    thread is at the selection or the submission only when [initialized]
    is set. *)
Theorem init_request_does_not_wait m :
  reachable m ->
  (simPc m = P_InitLock -> initialized (dataPtr m) = false ->
   forall pending, exists m',
     run [Sim pending; Sim pending; Sim pending] m = Next m' /\
     simPc m' = P_Idle /\ doInit (dataPtr m') = true /\
     initialized (dataPtr m') = false /\ initCalls m' = 0%nat /\
     renderPc m' = wakeRender (renderPc m) /\
     trace m' = EvInitRequest :: trace m /\
     (forall t has, exists m3,
        exec (PostUpdate t has) m' = Next m3 /\
        initialized (dataPtr m3) = false) /\
     (renderPc m = R_InitWait ->
      forall found, exists m'',
        exec (Render found) m' = Next m'' /\
        initialized (dataPtr m'') = true /\ initCalls m'' = 1%nat /\
        scene (dataPtr m'') = renderUtilScene /\
        trace m'' = EvInit :: trace m')) /\
  (simPastGate (simPc m) = true -> initialized (dataPtr m) = true).
Proof.
  intros Hr. pose proof (inv_reachable m Hr) as HI. split.
  - intros Hpc Hini pending. destruct HI.
    break_state m. simpl in *. subst sp. destruct ini; [discriminate|].
    assert (upd = false) as ->
      by (destruct upd; [specialize (inv_avail0 eq_refl); discriminate | reflexivity]).
    assert (mu = false) as ->.
    { destruct rp; simpl in *; auto; specialize (inv_cycle_loop0 eq_refl);
        discriminate. }
    unfold simStep, simMayProceed. simpl. rewrite orb_true_r. simpl.
    rewrite andb_false_r. eexists; split; [reflexivity|]. simpl.
    do 6 (split; [auto|]). split.
    { intros t0 has. unfold postUpdate. simpl.
      destruct has; eexists; (split; [reflexivity|]); reflexivity. }
    intros -> found. simpl. unfold initBody. simpl.
    eexists; split; [reflexivity|]. simpl. auto.
  - apply (inv_gate m HI).
Qed.

(** *** Shutdown *)

Lemma stuck_exec a m m' :
  quiet a = true -> stuck m -> exec a m = Next m' -> stuck m'.
Proof.
  intros Hq (Hr & Hk & Hj & Hrun & Hs) He. break_state m. simpl in *.
  subst rp kp j run.
  destruct a; simpl in *; try discriminate.
  - unfold postUpdate in He; simpl in He. destruct hasRendering; [discriminate|].
    destruct Hs as [->| ->]; [|discriminate]. rewrite andb_false_r in He.
    injection He as <-. repeat split; auto.
  - unfold simStep in He; simpl in He.
    destruct Hs as [->| ->]; [discriminate|]. simpl in He.
    injection He as <-. repeat split; auto.
  - destruct Hs as [->| ->]; discriminate.
Qed.

Lemma stuck_run sched : forall m m',
  forallb quiet sched = true -> stuck m -> run sched m = Next m' -> stuck m'.
Proof.
  induction sched as [|a rest IH]; simpl; intros m m' Hq Hs Hr.
  - by injection Hr as <-.
  - apply andb_prop in Hq as [Ha Hrest].
    destruct (exec a m) as [m1| |] eqn:He; try discriminate.
    apply (IH m1 m' Hrest); [eapply stuck_exec; eauto | exact Hr].
Qed.

(** C2, at the failing schedule.  On [lostWakeup] the machine reaches a
    state where the render thread is blocked in the wait of line 118 with
    [running] already cleared, no rendering component ever seen, and
    [Stop] at its join; from there no schedule of quiet actions moves
    either of them, so [Stop] does not return. *)
Theorem stop_lost_wakeup :
  exists m0,
    run lostWakeup configured = Next m0 /\
    renderPc m0 = R_InitWait /\ stopPc m0 = S_Join /\
    running (dataPtr m0) = false /\ sawRendering m0 = false /\
    forall sched m,
      forallb quiet sched = true -> run sched m0 = Next m ->
      renderPc m = R_InitWait /\ stopPc m = S_Join /\ joined m = false.
Proof.
  eexists; split; [reflexivity|]. simpl.
  do 4 (split; [reflexivity|]).
  intros sched m Hq Hr. eapply stuck_run in Hr; [|exact Hq|].
  - destruct Hr as (? & ? & ? & _); auto.
  - repeat split; auto.
Qed.

(** *** The selection loop *)

Lemma selectOne_eq t mgr id mask active :
  selectOne t mgr id mask active =
  Ok (expireOne t mask id,
      if selects t mgr mask id then active ++ [id] else active).
Proof.
  unfold selectOne, expireOne, selects, suppressed, dueRendering,
    includeIfDue, dynamicCastRendering, managerSensor, deref.
  destruct (mask !! id) as [until|]; [destruct (Qle_bool until t)|];
    destruct (mgr !! id) as [o|] eqn:Ho; simpl; rewrite ?Ho; simpl;
    try reflexivity;
    destruct (isRendering o); simpl; rewrite ?Ho; simpl; reflexivity.
Qed.

Lemma suppressed_expireOne t mask id j :
  suppressed t (expireOne t mask id) j = suppressed t mask j.
Proof.
  unfold expireOne, suppressed.
  destruct (mask !! id) as [until|] eqn:Hm; [|reflexivity].
  destruct (Qle_bool until t) eqn:Hle; [|reflexivity].
  destruct (decide (j = id)) as [->|Hne].
  - by rewrite lookup_delete_eq, Hm, Hle.
  - by rewrite lookup_delete_ne.
Qed.

Lemma selectLoop_eq t mgr ids : forall mask active,
  selectLoop t mgr ids mask active =
  Ok (foldl (expireOne t) mask ids,
      active ++ List.filter (selects t mgr mask) ids).
Proof.
  induction ids as [|id rest IH]; intros mask active; simpl.
  - by rewrite app_nil_r.
  - rewrite selectOne_eq. simpl. rewrite IH. f_equal. f_equal.
    assert (List.filter (selects t mgr (expireOne t mask id)) rest =
            List.filter (selects t mgr mask) rest) as ->.
    { apply List.filter_ext. intros j. unfold selects.
      by rewrite suppressed_expireOne. }
    destruct (selects t mgr mask id); [by rewrite <- app_assoc | reflexivity].
Qed.

Lemma expire_lookup_other t ids : forall mask j,
  j ∉ ids -> foldl (expireOne t) mask ids !! j = mask !! j.
Proof.
  induction ids as [|id rest IH]; intros mask j Hj; simpl; [reflexivity|].
  apply not_elem_of_cons in Hj as [Hne Hrest]. rewrite IH by exact Hrest.
  unfold expireOne. destruct (mask !! id) as [until|]; [|reflexivity].
  destruct (Qle_bool until t); [by rewrite lookup_delete_ne | reflexivity].
Qed.

Lemma expire_lookup_in t ids : forall mask j,
  j ∈ ids ->
  foldl (expireOne t) mask ids !! j =
  match mask !! j with
  | Some until => if Qle_bool until t then None else Some until
  | None => None
  end.
Proof.
  induction ids as [|id rest IH]; intros mask j Hj; [by apply elem_of_nil in Hj|].
  simpl. destruct (decide (j ∈ rest)) as [Hin|Hnot].
  - rewrite IH by exact Hin. unfold expireOne.
    destruct (mask !! id) as [until|] eqn:Hm; [|reflexivity].
    destruct (Qle_bool until t) eqn:Hle; [|reflexivity].
    destruct (decide (j = id)) as [->|Hne].
    + by rewrite lookup_delete_eq, Hm, Hle.
    + by rewrite lookup_delete_ne.
  - apply elem_of_cons in Hj as [->|Hin]; [|contradiction].
    rewrite expire_lookup_other by exact Hnot. unfold expireOne.
    destruct (mask !! id) as [until|] eqn:Hm; [|by rewrite ?Hm].
    destruct (Qle_bool until t) eqn:Hle; [by rewrite lookup_delete_eq|].
    by rewrite ?Hm.
Qed.

Lemma selected_iff t mgr mask ids id :
  id ∈ List.filter (selects t mgr mask) ids <->
  id ∈ ids /\ selects t mgr mask id = true.
Proof. rewrite !list_elem_of_In. apply List.filter_In. Qed.

Lemma dueRendering_true t mgr id :
  dueRendering t mgr id = true <->
  exists o, mgr !! id = Some o /\ isRendering o = true /\
            (NextUpdateTime o <= t)%Q.
Proof.
  unfold dueRendering. destruct (mgr !! id) as [o|]; split.
  - intros [? ?%Qle_bool_iff]%andb_prop. eauto.
  - intros (o' & [= <-] & -> & ?%Qle_bool_iff). simpl. assumption.
  - discriminate.
  - by intros (? & ? & _).
Qed.

Lemma Qle_bool_false a b : Qle_bool a b = false <-> (b < a)%Q.
Proof.
  split.
  - intros H. apply Qnot_le_lt. intros Hle%Qle_bool_iff. congruence.
  - intros H. destruct (Qle_bool a b) eqn:E; [|reflexivity].
    apply Qle_bool_iff in E. lra.
Qed.

(** The selection loop on any data.  For the simulation time [t] and every
    identifier of the registry, the selection loop ends (no fault) and: an
    identifier whose mask entry lies strictly after [t] is not selected and
    keeps its entry; an identifier whose mask entry is at or before [t]
    loses the entry and is then judged like an unmasked one; an identifier
    without entry is selected exactly when the manager holds a
    rendering-capable sensor under it whose next update time is at or
    before [t]. *)
Lemma frame_selector t d id :
  id ∈ sensorIds d ->
  exists mask' sel,
    selectSensors t d = Ok (mask', sel) /\
    (forall until, sensorMask d !! id = Some until -> (t < until)%Q ->
       (id ∉ sel) /\ mask' !! id = Some until) /\
    (forall until, sensorMask d !! id = Some until -> (until <= t)%Q ->
       mask' !! id = None /\
       ((id ∈ sel) <->
        exists o, sensorManager d !! id = Some o /\ isRendering o = true /\
                  (NextUpdateTime o <= t)%Q)) /\
    (sensorMask d !! id = None ->
       mask' !! id = None /\
       ((id ∈ sel) <->
        exists o, sensorManager d !! id = Some o /\ isRendering o = true /\
                  (NextUpdateTime o <= t)%Q)).
Proof using.
  intros Hin. unfold selectSensors. rewrite selectLoop_eq. simpl.
  do 2 eexists. split; [reflexivity|].
  split; [|split].
  - intros u Hm Hlt. rewrite selected_iff, (expire_lookup_in t _ _ _ Hin).
    unfold selects, suppressed.
    rewrite Hm. apply Qle_bool_false in Hlt. rewrite Hlt. simpl.
    split; [|reflexivity]. intros [_ ?]. discriminate.
  - intros u Hm Hle.
    rewrite selected_iff, <- dueRendering_true, (expire_lookup_in t _ _ _ Hin).
    unfold selects, suppressed. rewrite Hm.
    apply Qle_bool_iff in Hle. rewrite Hle. simpl.
    split; [reflexivity|]. split; [intros [_ ?]; assumption | intros ?; split; assumption].
  - intros Hm.
    rewrite selected_iff, <- dueRendering_true, (expire_lookup_in t _ _ _ Hin).
    unfold selects, suppressed. rewrite Hm. simpl.
    split; [reflexivity|]. split; [intros [_ ?]; assumption | intros ?; split; assumption].
Qed.

(** *** The registry holds rendering sensors only *)

Lemma set_insert_elem_of x y l : y ∈ set_insert x l <-> y = x \/ y ∈ l.
Proof.
  induction l as [|z l IH]; simpl.
  - rewrite list_elem_of_singleton, elem_of_nil. tauto.
  - destruct (x <? z)%N; [by rewrite elem_of_cons|].
    destruct (x =? z)%N eqn:Heq.
    + apply N.eqb_eq in Heq as ->. rewrite elem_of_cons. tauto.
    + rewrite !elem_of_cons, IH. tauto.
Qed.

Lemma CreateSensor_rendering sdf parentName d log n d' log' :
  (forall sdf0, keepsRendering (fun mgr => (managerCreateSensor sdf0 mgr).2)) ->
  registryRendering d ->
  CreateSensor sdf parentName d log = Returned n d' log' ->
  registryRendering d'.
Proof.
  intros Hkeep Hreg. unfold CreateSensor.
  destruct (bool_decide (sdfType sdf = NONE)); [by intros [= _ <- _]|].
  specialize (Hkeep sdf (sensorManager d)). simpl in Hkeep.
  destruct (managerCreateSensor sdf (sensorManager d)) as [sid mgr].
  simpl in Hkeep.
  unfold managerSensor, dynamicCastRendering, deref.
  destruct (mgr !! sid) as [o|] eqn:Ho; [|discriminate]. rewrite Ho.
  destruct (isRendering o) eqn:Hro; [|discriminate]. rewrite Ho.
  intros [= _ <- _]. intros id Hid. simpl in *.
  apply set_insert_elem_of in Hid as [->|Hid].
  - rewrite lookup_insert_eq. eexists. split; [reflexivity|]. exact Hro.
  - destruct (decide (id = sid)) as [->|Hne].
    + rewrite lookup_insert_eq. eexists. split; [reflexivity|]. exact Hro.
    + rewrite lookup_insert_ne by congruence.
      destruct (Hreg id Hid) as (o0 & Ho0 & Hr0). by eapply Hkeep.
Qed.

Lemma createSensors_rendering found : forall d log n d' log',
  (forall sdf0, keepsRendering (fun mgr => (managerCreateSensor sdf0 mgr).2)) ->
  registryRendering d ->
  createSensors found d log = Returned n d' log' ->
  registryRendering d'.
Proof.
  induction found as [|[sdf parent] rest IH]; simpl;
    intros d log n d' log' Hkeep Hreg Hc.
  - by injection Hc as _ <- _.
  - destruct (CreateSensor sdf parent d log) as [n1 d1 l1|] eqn:H1;
      [|discriminate].
    eapply IH; [exact Hkeep| |exact Hc].
    eapply CreateSensor_rendering; eauto.
Qed.

Lemma registry_exec a m m' :
  (forall sdf0, keepsRendering (fun mgr => (managerCreateSensor sdf0 mgr).2)) ->
  (forall t, keepsRendering (managerRunOnce t)) ->
  exec a m = Next m' ->
  registryRendering (dataPtr m) -> registryRendering (dataPtr m').
Proof.
  intros Hkeep Hrun He Hreg. break_state m. simpl in *.
  destruct a; simpl in He.
  - unfold postUpdate in He; simpl in He. destruct sp; try discriminate.
    step_cases He; injection He as <-; exact Hreg.
  - unfold simStep, simMayProceed in He; simpl in He.
    destruct sp; try discriminate;
      try destruct (selectSensors _ _) as [[mask' active]|];
      step_cases He; injection He as <-; exact Hreg.
  - unfold renderStep in He; simpl in He. unfold initBody in He.
    destruct rp; try discriminate;
      try (step_cases He; injection He as <-; exact Hreg).
    + destruct mu; [discriminate|].
      destruct (negb run || upd); [|by injection He as <-].
      destruct (negb run); [by injection He as <-|].
      destruct (createSensors _ _ _) as [n d' lg'|] eqn:Hc; [|discriminate].
      injection He as <-. simpl.
      eapply createSensors_rendering; [exact Hkeep| |exact Hc]. exact Hreg.
    + destruct (bool_decide (act = [])); simpl in He;
        [|destruct (maskActive _ _ _ _); [|discriminate]];
        injection He as <-; exact Hreg.
    + destruct (bool_decide (act = [])); simpl in He;
        injection He as <-; [exact Hreg|].
      intros id Hid. simpl in *.
      destruct (Hreg id Hid) as (o & Ho & Hr). by eapply Hrun.
  - unfold stopCall in He; simpl in He. destruct kp; try discriminate.
    step_cases He; injection He as <-; exact Hreg.
  - unfold stopStep in He; simpl in He. destruct kp; try discriminate;
      step_cases He; injection He as <-; exact Hreg.
  - step_cases He. injection He as <-. exact Hreg.
  - step_cases He. injection He as <-. exact Hreg.
Qed.

Lemma registry_reachable m :
  (forall sdf0, keepsRendering (fun mgr => (managerCreateSensor sdf0 mgr).2)) ->
  (forall t, keepsRendering (managerRunOnce t)) ->
  reachable m -> registryRendering (dataPtr m).
Proof.
  intros Hkeep Hrun [sched Hr].
  assert (Hgen : forall m0 m1,
            registryRendering (dataPtr m0) -> run sched m0 = Next m1 ->
            registryRendering (dataPtr m1)).
  { clear Hr. induction sched as [|a rest IH]; simpl; intros m0 m1 Hreg Hr.
    - by injection Hr as <-.
    - destruct (exec a m0) as [m2| |] eqn:He; try discriminate.
      eapply IH; [|exact Hr]. eapply registry_exec; eauto. }
  eapply Hgen; [|exact Hr]. intros id Hid. by apply elem_of_nil in Hid.
Qed.

(** C4.  Frame selector.  With a sensor manager that keeps the rendering
    sensors it holds (neither creating a sensor nor [RunOnce] removes one
    or replaces it by a sensor of another kind), in every state the
    machine reaches every identifier of the registry names a rendering
    sensor, and for every simulation time [t] the selection loop ends
    with: the sensor skipped, and its entry kept, when a mask entry lies
    strictly after [t]; the entry removed and the sensor judged again
    when a mask entry is at or before [t]; and a sensor without
    (remaining) entry selected exactly when its own next update time is
    at or before [t].  The selection step of the simulation thread puts
    that selection into the local vector and that mask into the shared
    data. *)
Theorem frame_selector_on_registry m id t :
  (forall sdf, keepsRendering (fun mgr => (managerCreateSensor sdf mgr).2)) ->
  (forall t0, keepsRendering (managerRunOnce t0)) ->
  reachable m ->
  id ∈ sensorIds (dataPtr m) ->
  exists o mask' sel,
    sensorManager (dataPtr m) !! id = Some o /\ isRendering o = true /\
    selectSensors t (dataPtr m) = Ok (mask', sel) /\
    (forall until, sensorMask (dataPtr m) !! id = Some until ->
       (t < until)%Q -> (id ∉ sel) /\ mask' !! id = Some until) /\
    (forall until, sensorMask (dataPtr m) !! id = Some until ->
       (until <= t)%Q ->
       mask' !! id = None /\ ((id ∈ sel) <-> (NextUpdateTime o <= t)%Q)) /\
    (sensorMask (dataPtr m) !! id = None ->
       mask' !! id = None /\ ((id ∈ sel) <-> (NextUpdateTime o <= t)%Q)) /\
    (simPc m = P_Select -> simT m = t ->
     forall pending, exists m',
       exec (Sim pending) m = Next m' /\ simActive m' = sel /\
       sensorMask (dataPtr m') = mask' /\ simT m' = t).
Proof.
  intros Hkeep Hrun Hr Hin.
  destruct (registry_reachable m Hkeep Hrun Hr id Hin) as (o & Ho & Hro).
  destruct (frame_selector t (dataPtr m) id Hin)
    as (mask' & sel & Hs & Hfut & Hexp & Hnone).
  assert (Hdue : (exists o0, sensorManager (dataPtr m) !! id = Some o0 /\
                   isRendering o0 = true /\ (NextUpdateTime o0 <= t)%Q) <->
                 (NextUpdateTime o <= t)%Q).
  { split.
    - intros (o0 & Ho0 & _ & Hle). rewrite Ho in Ho0.
      by injection Ho0 as <-.
    - intros Hle. exists o. auto. }
  exists o, mask', sel. split; [exact Ho|]. split; [exact Hro|].
  split; [exact Hs|]. split; [exact Hfut|]. split; [|split].
  - intros u Hm Hle. destruct (Hexp u Hm Hle) as [Hn Hiff].
    split; [exact Hn|]. by rewrite Hiff.
  - intros Hm. destruct (Hnone Hm) as [Hn Hiff].
    split; [exact Hn|]. by rewrite Hiff.
  - intros Hpc Ht pending. simpl. unfold simStep. rewrite Hpc, Ht, Hs.
    destruct (negb (bool_decide (sel = [])) || bool_decide (0 < pending)%nat);
      eexists; (split; [reflexivity|]); simpl; auto.
Qed.


Lemma selects_withRate f t mgr mask id :
  selects t (withRate f <$> mgr) mask id = selects t mgr mask id.
Proof.
  unfold selects, dueRendering. rewrite lookup_fmap.
  by destruct (mgr !! id).
Qed.

(** C6, as the code has it.  The selection does not consult the update
    rate: whatever the rates of the sensors are changed to (to zero, for
    one), the loop gives the same mask and the same selection. *)
Theorem selection_ignores_update_rate (f : Q -> Q) t d :
  selectSensors t (set_sensorManager (withRate f <$> sensorManager d) d) =
  selectSensors t d.
Proof.
  unfold selectSensors. simpl. rewrite !selectLoop_eq. do 2 f_equal.
  apply List.filter_ext. intros id. apply selects_withRate.
Qed.

(** *** The masking loop *)


Lemma maskActive_other t mgr : forall active mask mask',
  coherent mgr ->
  maskActive t mgr active mask = Ok mask' ->
  forall k, k ∉ active -> mask' !! k = mask !! k.
Proof.
  induction active as [|p rest IH]; simpl; intros mask mask' Hc Hm k Hk.
  - by injection Hm as <-.
  - apply not_elem_of_cons in Hk as [Hne Hrest].
    destruct (mgr !! p) as [o|] eqn:Ho; [|discriminate]. simpl in Hm.
    destruct (maskDelta (UpdateRate o)) as [delta|]; [|discriminate].
    simpl in Hm. rewrite (IH _ _ Hc Hm k Hrest).
    rewrite (Hc _ _ Ho). by rewrite lookup_insert_ne.
Qed.




(** *** [CreateSensor] *)

Lemma set_insert_elem x l : x ∈ set_insert x l.
Proof.
  induction l as [|y l IH]; simpl; [apply list_elem_of_here|].
  destruct (x <? y)%N eqn:Hlt; [apply list_elem_of_here|].
  destruct (x =? y)%N eqn:Heq.
  - apply N.eqb_eq in Heq as ->. apply list_elem_of_here.
  - by apply list_elem_of_further.
Qed.

Lemma CreateSensor_registers sdf parentName d log :
  sdfType sdf <> NONE ->
  match CreateSensor sdf parentName d log with
  | Returned _ d' _ | Crashed _ d' _ =>
      (managerCreateSensor sdf (sensorManager d)).1 ∈ sensorIds d'
  end.
Proof.
  intros Hty. unfold CreateSensor. rewrite bool_decide_false by exact Hty.
  destruct (managerCreateSensor sdf (sensorManager d)) as [sid mgr]. simpl.
  destruct (deref mgr _); simpl; apply set_insert_elem.
Qed.

Lemma CreateSensor_null_handle sdf parentName d log sid mgr :
  sdfType sdf <> NONE ->
  managerCreateSensor sdf (sensorManager d) = (sid, mgr) ->
  mgr !! sid = None ->
  CreateSensor sdf parentName d log =
  Crashed NullDereference
    (set_sensorIds (set_insert sid (sensorIds d)) (set_sensorManager mgr d))
    (log ++ [failedToCreate sdf]).
Proof.
  intros Hty Hc Hn. unfold CreateSensor. rewrite bool_decide_false by exact Hty.
  rewrite Hc. unfold managerSensor. rewrite Hn. reflexivity.
Qed.

(** C7.  What [CreateSensor] does on its three error paths.  A descriptor
    of type [NONE]: the error is logged, the empty string returned, the
    data untouched.  A manager that gives no object for the new
    identifier: the failure is logged and the identifier registered, and
    then the null pointer is used ([renderingSensor->SetScene]) instead of
    returning.  A manager that gives a rendering sensor whose [Id()] is
    [NO_SENSOR]: the failure is logged and the sensor's name returned. *)
Theorem CreateSensor_error_paths sdf parentName d log :
  (sdfType sdf = NONE ->
   CreateSensor sdf parentName d log =
   Returned EmptyString d (log ++ [typeIsNone])) /\
  (sdfType sdf <> NONE ->
   forall sid mgr,
     managerCreateSensor sdf (sensorManager d) = (sid, mgr) ->
     mgr !! sid = None ->
     CreateSensor sdf parentName d log =
     Crashed NullDereference
       (set_sensorIds (set_insert sid (sensorIds d)) (set_sensorManager mgr d))
       (log ++ [failedToCreate sdf])) /\
  (sdfType sdf <> NONE ->
   forall sid mgr o,
     managerCreateSensor sdf (sensorManager d) = (sid, mgr) ->
     mgr !! sid = Some o -> Id o = NO_SENSOR -> isRendering o = true ->
     exists d',
       CreateSensor sdf parentName d log =
       Returned (Name o) d' (log ++ [failedToCreate sdf])).
Proof.
  split; [|split].
  - intros Hty. unfold CreateSensor. by rewrite bool_decide_true.
  - intros Hty sid mgr. by apply CreateSensor_null_handle.
  - intros Hty sid mgr o Hc Ho Hid Hr. unfold CreateSensor.
    rewrite bool_decide_false by exact Hty. rewrite Hc.
    unfold managerSensor, creationFailed, dynamicCastRendering, deref.
    rewrite Ho. simpl. rewrite Ho, Hr. simpl. rewrite Ho. simpl.
    rewrite bool_decide_true by congruence. eexists. reflexivity.
Qed.

Lemma CreateSensor_invalid_handle sdf parentName d log :
  sdfType sdf <> NONE ->
  dynamicCastRendering (managerCreateSensor sdf (sensorManager d)).2
    (managerSensor (managerCreateSensor sdf (sensorManager d)).2
       (managerCreateSensor sdf (sensorManager d)).1) = None ->
  exists d' log',
    CreateSensor sdf parentName d log = Crashed NullDereference d' log' /\
    (managerCreateSensor sdf (sensorManager d)).1 ∈ sensorIds d'.
Proof.
  intros Hty Hnull. unfold CreateSensor.
  rewrite bool_decide_false by exact Hty.
  destruct (managerCreateSensor sdf (sensorManager d)) as [sid mgr].
  simpl in *. rewrite Hnull. simpl.
  do 2 eexists. split; [reflexivity|]. simpl. apply set_insert_elem.
Qed.

(** C10, at the failing input.  [CreateSensor] registers the identifier
    the manager returned before it looks at the handle, and the selection
    loop by itself is guarded: on any data it ends without a fault and
    selects no identifier whose handle is null or not rendering-capable.
    But a creation that gives a null or non-rendering handle does not
    return: [CreateSensor] faults at [renderingSensor->SetScene], the
    identifier already registered, and so does the step of the render
    thread in which [renderUtil.Update()] makes that call; no later step
    follows it. *)
Theorem failed_creation_faults sdf parentName m rest :
  sdfType sdf <> NONE ->
  dynamicCastRendering
    (managerCreateSensor sdf (sensorManager (dataPtr m))).2
    (managerSensor (managerCreateSensor sdf (sensorManager (dataPtr m))).2
       (managerCreateSensor sdf (sensorManager (dataPtr m))).1) = None ->
  renderPc m = R_LoopLock -> renderMutex m = false ->
  running (dataPtr m) = true -> updateAvailable (dataPtr m) = true ->
  (exists d' log',
     CreateSensor sdf parentName (dataPtr m) (errLog m) =
       Crashed NullDereference d' log' /\
     (managerCreateSensor sdf (sensorManager (dataPtr m))).1 ∈ sensorIds d') /\
  exec (Render ((sdf, parentName) :: rest)) m = Fault NullDereference /\
  (forall sched,
     run (Render ((sdf, parentName) :: rest) :: sched) m =
     Fault NullDereference) /\
  (forall t d2, exists mask' sel,
     selectSensors t d2 = Ok (mask', sel) /\
     forall id,
       dynamicCastRendering (sensorManager d2)
         (managerSensor (sensorManager d2) id) = None ->
       id ∉ sel).
Proof.
  intros Hty Hnull Hrp Hmu Hrun Hu.
  destruct (CreateSensor_invalid_handle sdf parentName (dataPtr m) (errLog m)
              Hty Hnull) as (d' & log' & Hc & Hin).
  assert (He : exec (Render ((sdf, parentName) :: rest)) m =
               Fault NullDereference).
  { simpl. unfold renderStep. rewrite Hrp, Hmu, Hrun, Hu. simpl.
    by rewrite Hc. }
  split; [by exists d', log'|]. split; [exact He|]. split.
  - intros sched. change (run (?a :: sched) m) with
      (match exec a m with Next m' => run sched m' | o => o end).
    by rewrite He.
  - intros t d2. unfold selectSensors. rewrite selectLoop_eq. simpl.
    do 2 eexists. split; [reflexivity|].
    intros id Hinv. rewrite selected_iff. intros [_ Hs].
    unfold selects, dueRendering in Hs.
    unfold dynamicCastRendering, managerSensor in Hinv.
    destruct (sensorManager d2 !! id) as [o|] eqn:Ho.
    + rewrite Ho in Hinv. destruct (isRendering o); [discriminate|].
      by rewrite andb_false_r in Hs.
    + by rewrite andb_false_r in Hs.
Qed.

(** *** Further properties of the protocol *)

(** X1.  The wait of line 229 never sleeps: in every state the machine
    reaches the simulation thread is not blocked in it, and at the lock of
    line 228 (the mutex free) its step sets [doInit] and goes on to the
    notification, because no cycle can be outstanding during an
    initialization request. *)
Theorem init_request_never_sleeps m :
  reachable m ->
  simPc m <> P_InitWait /\
  (simInInitRequest (simPc m) = true ->
   updateAvailable (dataPtr m) = false) /\
  (simPc m = P_InitLock -> renderMutex m = false ->
   forall pending, exists m',
     exec (Sim pending) m = Next m' /\ simPc m' = P_InitNotify /\
     doInit (dataPtr m') = true).
Proof.
  intros Hr. destruct (both_reachable m Hr) as [HI HS].
  split; [apply (sync_no_init_wait m HS)|].
  split; [apply (sync_request m HS)|].
  intros Hpc Hmu pending. simpl. unfold simStep, simMayProceed.
  rewrite Hpc, Hmu, (sync_request m HS) by (by rewrite Hpc).
  rewrite orb_true_r. eexists. split; [reflexivity|]. by split.
Qed.

(** X2.  No mutual sleep in the hand-off.  While [running] is set: when
    the producer sleeps in the submission wait the worker is on its way
    through the cycle loop (not asleep, not gone, not in the first loop),
    and when the worker sleeps in the wait of line 139 no cycle is
    outstanding and the producer is not asleep. *)
Theorem no_mutual_sleep m :
  reachable m -> running (dataPtr m) = true ->
  (simPc m = P_SubmitWait -> renderServing (renderPc m) = true) /\
  (renderPc m = R_LoopWait ->
   updateAvailable (dataPtr m) = false /\ simPc m <> P_SubmitWait /\
   simPc m <> P_InitWait).
Proof.
  intros Hr Hrun. destruct (both_reachable m Hr) as [HI HS].
  assert (Hsleep : simPc m = P_SubmitWait -> renderServing (renderPc m) = true).
  { intros Hpc. destruct (sync_sleeping m HS Hpc Hrun) as [Hu| ->].
    - by apply (sync_outstanding m HS).
    - reflexivity. }
  split; [exact Hsleep|]. intros Hpc. split; [|split].
  - destruct (updateAvailable (dataPtr m)) eqn:Hu; [|reflexivity].
    pose proof (sync_outstanding m HS Hu Hrun) as Hs.
    rewrite Hpc in Hs. discriminate.
  - intros Hs%Hsleep. rewrite Hpc in Hs. discriminate.
  - apply (sync_no_init_wait m HS).
Qed.

(** X3.  [Stop] is idempotent.  After a [Stop] that has returned (the
    thread joined), another call (the destructor's, say) runs its three
    steps without blocking, changes none of the data, and leaves the
    render thread gone and joined. *)
Theorem stop_again_returns m :
  reachable m -> joined m = true -> stopPc m = S_Idle ->
  exists m',
    run [StopCall; StopStep; StopStep] m = Next m' /\
    dataPtr m' = dataPtr m /\ joined m' = true /\ stopPc m' = S_Idle /\
    renderPc m' = R_Done /\ trace m' = EvStop :: trace m.
Proof.
  intros Hr Hj Hk. destruct (both_reachable m Hr) as [HI HS].
  pose proof (sync_joined m HS Hj) as Hrp.
  pose proof (inv_done m HI Hrp) as Hrun.
  pose proof (inv_mutex m HI) as Hmu. rewrite Hrp in Hmu.
  break_state m. simpl in *. subst.
  eexists. split; [reflexivity|]. simpl. repeat split.
Qed.

(** X4.  Outside the window of the lost wake-up, [Stop] returns.  Once [Stop] has left
    its critical section, if the render thread is anywhere but between the
    test of line 114 and the wait of line 118, then [notify_all], at most
    three steps of the render thread alone and the join bring [Stop] to
    its end with the thread gone. *)
Theorem stop_returns_outside_window m :
  reachable m -> stopPc m = S_Notify -> renderPc m <> R_InitLock ->
  exists n m',
    (n <= 3)%nat /\
    run (StopStep :: renderAlone n ++ [StopStep]) m = Next m' /\
    renderPc m' = R_Done /\ joined m' = true /\ stopPc m' = S_Idle.
Proof.
  intros Hr Hk Hrp. destruct (both_reachable m Hr) as [HI HS].
  assert (Hrun : running (dataPtr m) = false)
    by (apply (sync_stop m HS); by rewrite Hk).
  pose proof (inv_mutex m HI) as Hmu. pose proof (inv_holding m HI) as Hh.
  rewrite Hrun in Hh. simpl in Hh.
  clear Hr HI HS.
  break_state m. simpl in *. subst kp run.
  destruct rp; simpl in Hmu, Hh;
    try (exfalso; apply Hrp; reflexivity); subst mu;
    try (specialize (Hh eq_refl); discriminate);
    clear Hh Hrp;
    destruct doI, ini, upd, j;
    first
      [ solve [exists 0%nat; eexists; split; [lia|];
               split; [vm_compute; reflexivity|]; repeat split]
      | solve [exists 1%nat; eexists; split; [lia|];
               split; [vm_compute; reflexivity|]; repeat split]
      | solve [exists 2%nat; eexists; split; [lia|];
               split; [vm_compute; reflexivity|]; repeat split]
      | solve [exists 3%nat; eexists; split; [lia|];
               split; [vm_compute; reflexivity|]; repeat split] ].
Qed.

(** X5.  [CreateSensor] when the creation goes well.  The manager gives a
    rendering sensor with a valid [Id()] under the identifier it returned:
    nothing is logged, the identifier is registered, the sensor gets the
    scene, the parent name and the manual scene update, and its name is
    returned; nothing of the hand-off is touched. *)
Theorem CreateSensor_success sdf parentName d log sid mgr o :
  sdfType sdf <> NONE ->
  managerCreateSensor sdf (sensorManager d) = (sid, mgr) ->
  mgr !! sid = Some o -> isRendering o = true -> Id o <> NO_SENSOR ->
  exists d',
    CreateSensor sdf parentName d log = Returned (Name o) d' log /\
    sensorIds d' = set_insert sid (sensorIds d) /\
    sensorManager d' = <[sid := bindToScene (scene d) parentName o]> mgr /\
    sameControl d d'.
Proof.
  intros Hty Hc Ho Hr Hid. unfold CreateSensor.
  rewrite bool_decide_false by exact Hty. rewrite Hc.
  unfold managerSensor, creationFailed, dynamicCastRendering, deref.
  rewrite Ho. simpl. rewrite Ho, Hr. simpl. rewrite Ho. simpl.
  rewrite bool_decide_false by congruence.
  eexists. split; [reflexivity|]. simpl. repeat split.
Qed.

(** X6.  A cycle without sensors (line 155).  With [activeSensors] empty
    the worker goes through the rest of the cycle without touching the
    mask or the sensor manager: its two steps only reset
    [updateAvailable], give the lock back and record the completion. *)
Theorem empty_cycle_skips_rendering f1 f2 m :
  renderPc m = R_LoopMask -> activeSensors (dataPtr m) = [] ->
  exists m',
    run [Render f1; Render f2] m = Next m' /\
    renderPc m' = R_LoopNotify /\ renderMutex m' = false /\
    dataPtr m' = set_updateAvailable false (dataPtr m) /\
    trace m' = EvComplete :: trace m.
Proof.
  intros Hpc Hact. break_state m. simpl in *. subst rp act.
  eexists. split; [reflexivity|]. simpl. repeat split.
Qed.

(** X7.  The selection loop only erases.  On any data the loop ends; it
    selects registered identifiers only; it leaves the mask entries of
    identifiers outside the registry alone; it adds no entry and changes
    none; and an entry of a registered identifier that is left lies
    strictly after [t]. *)
Theorem selection_only_erases t d :
  exists mask' sel,
    selectSensors t d = Ok (mask', sel) /\
    (forall id, id ∈ sel -> id ∈ sensorIds d) /\
    (forall id, id ∉ sensorIds d -> mask' !! id = sensorMask d !! id) /\
    (forall id u, mask' !! id = Some u -> sensorMask d !! id = Some u) /\
    (forall id u, id ∈ sensorIds d -> mask' !! id = Some u -> (t < u)%Q).
Proof.
  unfold selectSensors. rewrite selectLoop_eq. simpl.
  do 2 eexists. split; [reflexivity|]. split; [|split; [|split]].
  - intros id Hin. apply selected_iff in Hin. apply Hin.
  - intros id Hid. by apply expire_lookup_other.
  - intros id u. destruct (decide (id ∈ sensorIds d)) as [Hin|Hnot].
    + rewrite (expire_lookup_in t _ _ _ Hin).
      destruct (sensorMask d !! id) as [v|]; [|discriminate].
      by destruct (Qle_bool v t).
    + by rewrite (expire_lookup_other t _ _ _ Hnot).
  - intros id u Hin. rewrite (expire_lookup_in t _ _ _ Hin).
    destruct (sensorMask d !! id) as [v|]; [|discriminate].
    destruct (Qle_bool v t) eqn:Hle; [discriminate|].
    intros [= <-]. apply Qnot_le_lt. intros Hc%Qle_bool_iff. congruence.
Qed.

(** X8.  No cycle after [Stop].  In every state the machine reaches with
    [running] cleared, a step of the render thread takes no cycle, calls
    neither [CreateSensor] nor the masking loop nor [RunOnce] (registry,
    mask and manager stay as they are), and does not end inside the
    critical section of a cycle. *)
Theorem no_cycle_after_stop found m m' :
  reachable m -> running (dataPtr m) = false ->
  exec (Render found) m = Next m' ->
  List.filter isTake (trace m') = List.filter isTake (trace m) /\
  sensorIds (dataPtr m') = sensorIds (dataPtr m) /\
  sensorMask (dataPtr m') = sensorMask (dataPtr m) /\
  sensorManager (dataPtr m') = sensorManager (dataPtr m) /\
  running (dataPtr m') = false /\
  renderHoldsLock (renderPc m') = false.
Proof.
  intros Hr Hrun He. pose proof (inv_reachable m Hr) as HI.
  pose proof (inv_holding m HI) as Hh. rewrite Hrun in Hh. simpl in Hh.
  clear Hr HI. break_state m. simpl in *. subst run.
  unfold renderStep, initBody in He. simpl in He.
  destruct rp; simpl in *; try discriminate;
    try (specialize (Hh eq_refl); discriminate);
    step_cases He; injection He as <-; simpl; repeat split.
Qed.

(** X9.  The submission wait re-checks its predicate (lines 279-280).  A
    producer asleep there that is woken for no reason, the cycle still
    outstanding and [running] set, takes the lock, finds the predicate
    false and sleeps again: the machine is in the state it was in. *)
Theorem spurious_wakeup_sleeps_again pending m :
  simPc m = P_SubmitWait -> renderMutex m = false ->
  running (dataPtr m) = true -> updateAvailable (dataPtr m) = true ->
  exec SpuriousSim m = Next (set_simPc P_SubmitLock m) /\
  run [SpuriousSim; Sim pending] m = Next m.
Proof.
  intros Hpc Hmu Hrun Hu. break_state m. simpl in *. subst sp mu run upd.
  split; reflexivity.
Qed.


(** X11.  The masking step touches the mask only, and there only the
    entries of the sensors of the cycle. *)
Theorem masking_touches_only_cycle found m m' :
  coherent (sensorManager (dataPtr m)) ->
  renderPc m = R_LoopMask -> exec (Render found) m = Next m' ->
  (forall k, k ∉ activeSensors (dataPtr m) ->
     sensorMask (dataPtr m') !! k = sensorMask (dataPtr m) !! k) /\
  dataPtr m' = set_sensorMask (sensorMask (dataPtr m')) (dataPtr m) /\
  renderPc m' = R_LoopRender /\ renderMutex m' = renderMutex m /\
  trace m' = trace m.
Proof.
  intros Hc Hpc He. simpl in He. unfold renderStep in He. rewrite Hpc in He.
  destruct (bool_decide (activeSensors (dataPtr m) = [])).
  - injection He as <-. simpl. split; [reflexivity|].
    split; [by destruct (dataPtr m)|]. repeat split.
  - destruct (maskActive _ _ _ _) as [mask'|] eqn:Hm; [|discriminate].
    injection He as <-. simpl. split; [|repeat split].
    intros k Hk. by eapply maskActive_other.
Qed.

(** X12.  The gate of line 237.  A [PostUpdate] that asks for no
    initialization and finds [running] cleared or [initialized] unset
    returns at once: two steps, none of the shared data touched, no
    selection loop, no event. *)
Theorem gate_closed_does_nothing t hasRendering pending m :
  simPc m = P_Idle ->
  running (dataPtr m) && initialized (dataPtr m) = false ->
  negb (initialized (dataPtr m)) && hasRendering = false ->
  exists m',
    run [PostUpdate t hasRendering; Sim pending] m = Next m' /\
    simPc m' = P_Idle /\ dataPtr m' = dataPtr m /\ trace m' = trace m /\
    renderPc m' = renderPc m.
Proof.
  intros Hpc Hgate Hini. break_state m. simpl in *. subst sp.
  unfold postUpdate. simpl. rewrite Hini. simpl.
  unfold simStep. simpl. rewrite Hgate.
  eexists. split; [reflexivity|]. repeat split.
Qed.

End Sensors.

(** ** The machine on concrete runs *)

(** The machine started with the stub manager, [NO_SENSOR] being 0. *)
Abbreviation runStub := (run 0%N stubCreateSensor stubRunOnce (Some 1%nat)).
Abbreviation execStub := (exec 0%N stubCreateSensor stubRunOnce (Some 1%nat)).



(** [Stop] while the render thread already sleeps in the wait of line 118
    goes well: the thread is woken, leaves both loops, and the join
    returns. *)
Example stop_while_waiting_for_init :
  exists m,
    runStub [Render []; Render []; StopCall; StopStep;
             Render []; Render []; Render []; StopStep] configured = Next m /\
    renderPc m = R_Done /\ joined m = true /\ stopPc m = S_Idle /\
    initCalls m = 0%nat.
Proof. eexists. split; [vm_compute; reflexivity|]. repeat split. Qed.

(** Witness of C9, on the run in which two cycles were taken. *)
Lemma init_before_cycle_witness :
  exists m,
    runStub (twoCycles 10) configured = Next m /\
    countEv isTake (trace m) = 3%nat /\
    initFirst (trace m) = true /\ initialized (dataPtr m) = true.
Proof.
  eexists. split; [vm_compute; reflexivity|].
  split; [vm_compute; reflexivity|].
  match goal with |- context [trace ?m] =>
    destruct (init_before_cycle 0%N stubCreateSensor stubRunOnce
                (Some 1%nat) m) as (H1 & _ & H3 & _);
    [ exists (twoCycles 10); vm_compute; reflexivity | ]
  end.
  split; [exact H1 | apply H3; reflexivity].
Defined.

(** Witness of C8, on the same run. *)
Lemma lazy_single_init_witness :
  exists m,
    runStub (twoCycles 10) configured = Next m /\
    (initCalls m <= 1)%nat /\ sawRendering m = true.
Proof.
  eexists. split; [vm_compute; reflexivity|].
  match goal with |- context [initCalls ?m] =>
    destruct (lazy_single_init 0%N stubCreateSensor stubRunOnce
                (Some 1%nat) m) as (H1 & _ & H3 & _);
    [ exists (twoCycles 10); vm_compute; reflexivity | ]
  end.
  split; [exact H1 | apply H3; reflexivity].
Defined.

(** C3 fails as stated.  The render thread waits at line 118; a
    [PostUpdate] that sees a rendering component sets [doInit], notifies
    and returns with [initialized] unset, no scene and no call of
    [renderUtil.Init()] yet, the render thread only just woken; and the
    next [PostUpdate] starts. *)
Lemma init_request_returns_before_init :
  exists m,
    runStub firstRequest configured = Next m /\
    simPc m = P_Idle /\ doInit (dataPtr m) = true /\
    initialized (dataPtr m) = false /\ scene (dataPtr m) = None /\
    initCalls m = 0%nat /\ renderPc m = R_InitWoken /\
    exists m', execStub (PostUpdate 1%Q true) m = Next m' /\
               simPc m' = P_InitLock.
Proof.
  eexists. split; [vm_compute; reflexivity|]. repeat split.
  eexists. split; [vm_compute; reflexivity|]. reflexivity.
Qed.

(** Witness of C3: from the request point of the same run, the
    worker asleep at line 118. *)
Lemma init_request_does_not_wait_witness :
  exists m m',
    runStub [Render []; Render []; PostUpdate 0%Q true] configured = Next m /\
    renderPc m = R_InitWait /\
    runStub [Sim 0; Sim 0; Sim 0] m = Next m' /\
    simPc m' = P_Idle /\ doInit (dataPtr m') = true /\
    initialized (dataPtr m') = false /\ renderPc m' = R_InitWoken.
Proof.
  eexists.
  match goal with |- exists m', ?R = Next ?m /\ _ =>
    assert (R = Next m) as Hrun by (vm_compute; reflexivity);
    destruct (init_request_does_not_wait 0%N stubCreateSensor stubRunOnce
                (Some 1%nat) m) as (H1 & _);
    [ eexists; exact Hrun | ]
  end.
  destruct (H1 eq_refl eq_refl 0%nat) as (m' & Hr & Hpc & Hd & Hi & _ & Hw & _).
  exists m'. repeat split; assumption.
Defined.

Example set_insert_keeps_order :
  set_insert 2%N [1%N; 3%N] = [1%N; 2%N; 3%N] /\
  set_insert 3%N [1%N; 3%N] = [1%N; 3%N].
Proof. split; reflexivity. Qed.

(** The selection loop on [maskedData] at [t = 5]: camera 1 stays masked,
    camera 2 is unmasked and selected, camera 3 is selected. *)
Example selectSensors_maskedData :
  selectSensors 5 maskedData = Ok ({[ 1%N := 7%Q ]}, [2%N; 3%N]).
Proof. vm_compute. reflexivity. Qed.

(** The masking loop for the cameras 2 and 3 of a cycle of time 5. *)
Example maskActive_maskedData :
  maskActive 5 (sensorManager maskedData) [2%N; 3%N] {[ 1%N := 7%Q ]} =
  Ok (<[3%N := (5 + timeOfSeconds ((9 # 10) / 10))%Q]>
        (<[2%N := (5 + timeOfSeconds ((9 # 10) / 10))%Q]> {[ 1%N := 7%Q ]})).
Proof. vm_compute. reflexivity. Qed.

(** The selection loop on [maskedData] at [t = 5], identifier 2: its entry
    of time 3 goes and the camera is selected. *)
Example frame_selector_maskedData :
  exists mask' sel,
    selectSensors 5 maskedData = Ok (mask', sel) /\
    mask' !! 2%N = None /\ 2%N ∈ sel.
Proof.
  destruct (frame_selector 5 maskedData 2%N) as (mask' & sel & Hs & _ & He & _).
  { vm_compute. apply list_elem_of_further, list_elem_of_here. }
  exists mask', sel. split; [exact Hs|].
  destruct (He 3%Q) as [Hn Hiff].
  { vm_compute. reflexivity. }
  { vm_compute. discriminate. }
  split; [exact Hn|]. apply Hiff.
  eexists. split; [vm_compute; reflexivity|]. split; [reflexivity|].
  vm_compute. discriminate.
Qed.

Lemma nextId_fresh (mgr : Manager) k o :
  mgr !! k = Some o -> (k < nextId mgr)%N.
Proof.
  unfold nextId. intros Ho. apply N.lt_succ_r. revert k o Ho.
  apply (map_fold_weak_ind
           (fun acc (m : Manager) =>
              forall k o, m !! k = Some o -> (k <= acc)%N)).
  - intros k o Ho. by rewrite lookup_empty in Ho.
  - intros i x m r Hi IH k o Ho.
    destruct (decide (k = i)) as [->|Hne].
    + apply N.le_max_l.
    + rewrite lookup_insert_ne in Ho by congruence.
      specialize (IH k o Ho). lia.
Qed.

Lemma stubCreateSensor_keeps sdf :
  keepsRendering (fun mgr => (stubCreateSensor sdf mgr).2).
Proof.
  intros mgr k o Ho Hr. simpl. exists o. split; [|exact Hr].
  rewrite lookup_insert_ne; [exact Ho|].
  intros Heq. pose proof (nextId_fresh mgr k o Ho). lia.
Qed.

Lemma stubRunOnce_keeps t : keepsRendering (stubRunOnce t).
Proof.
  intros mgr k o Ho Hr. unfold stubRunOnce. rewrite lookup_fmap, Ho. simpl.
  eexists. split; [reflexivity|]. by destruct (_ && _).
Qed.

(** Witness of C4, on the run in which two cycles were taken: the mask
    entry of the camera, 1.09, is before [t = 2], so it goes, and the
    camera, due since 0.1, is selected. *)
Lemma frame_selector_on_registry_witness :
  exists m mask' sel,
    runStub (twoCycles 10) configured = Next m /\
    sensorIds (dataPtr m) = [1%N] /\
    selectSensors 2 (dataPtr m) = Ok (mask', sel) /\
    mask' !! 1%N = None /\ 1%N ∈ sel.
Proof.
  eexists.
  match goal with |- exists mask' sel, ?R = Next ?m /\ _ =>
    assert (R = Next m) as Hrun by (vm_compute; reflexivity);
    destruct (frame_selector_on_registry 0%N stubCreateSensor stubRunOnce
                (Some 1%nat) m 1%N 2%Q
                stubCreateSensor_keeps stubRunOnce_keeps)
      as (o & mask' & sel & Ho & _ & Hs & _ & Hexp & _);
    [ eexists; exact Hrun
    | vm_compute; apply list_elem_of_here
    | ]
  end.
  exists mask', sel. split; [exact Hrun|]. split; [reflexivity|].
  split; [exact Hs|].
  vm_compute in Ho. injection Ho as <-.
  edestruct Hexp as [Hn Hiff].
  { vm_compute. reflexivity. }
  { vm_compute. discriminate. }
  split; [exact Hn|]. apply Hiff. vm_compute. discriminate.
Defined.


(** The conversion on the rates 10, 7 and 1e10: 0.09 s is a whole number
    of nanoseconds; 0.9/7 s is rounded up to 128571429 ns; 0.9e-10 s is
    rounded to nothing. *)
Example timeOfSeconds_rounds :
  (timeOfSeconds ((9 # 10) / 10) == 9 # 100)%Q /\
  (timeOfSeconds ((9 # 10) / 7) == 128571429 # 1000000000)%Q /\
  (timeOfSeconds ((9 # 10) / 10000000000) == 0)%Q.
Proof. repeat split. Qed.


(** C6 fails as stated.  A camera of declared rate 0 is selected at time
    1 and submitted; the worker takes the cycle, and its masking loop
    divides 0.9 by the rate 0. *)
Lemma rate_zero_selected_and_divided :
  exists m,
    runStub (oneCycleTaken 0) configured = Next m /\
    UpdateRate <$> sensorManager (dataPtr m) !! 1%N = Some 0%Q /\
    trace m = [EvTake 1 [1%N]; EvSubmit 1 [1%N]; EvComplete; EvTake 0 [];
               EvSubmit 0 []; EvInit; EvInitRequest] /\
    activeSensors (dataPtr m) = [1%N] /\ renderPc m = R_LoopMask /\
    execStub (Render []) m = Fault DivisionByZero.
Proof.
  eexists. split; [vm_compute; reflexivity|].
  repeat split; vm_compute; reflexivity.
Qed.

(** C7 at the failing input: the manager returns identifier 0 with no
    object; [CreateSensor] logs the failure and then uses the null
    pointer. *)
Lemma CreateSensor_null_handle_faults :
  CreateSensor 0%N failingCreateSensor (camera 10) "link"
    (dataPtr configured) [] =
  Crashed NullDereference
    (set_sensorIds [0%N] (dataPtr configured))
    ["Failed to create sensor [camera]"%string].
Proof.
  destruct (CreateSensor_error_paths 0%N failingCreateSensor (camera 10)
              "link" (dataPtr configured) []) as (_ & H & _).
  rewrite (H ltac:(discriminate) 0%N ∅ eq_refl eq_refl). reflexivity.
Defined.

(** Witness of C10: the manager's creation fails in the first cycle; the
    step of the render thread that makes the call faults. *)
Lemma failed_creation_faults_witness :
  exists m,
    run 0%N failingCreateSensor stubRunOnce (Some 1%nat)
      (startUp ++ [PostUpdate 0%Q true; Sim 0; Sim 1; Sim 0]) configured =
      Next m /\
    renderPc m = R_LoopLock /\ sensorIds (dataPtr m) = [] /\
    exec 0%N failingCreateSensor stubRunOnce (Some 1%nat)
      (Render [(camera 10, "link"%string)]) m = Fault NullDereference.
Proof.
  eexists. split; [vm_compute; reflexivity|].
  do 2 (split; [reflexivity|]).
  match goal with |- exec _ _ _ _ _ ?m = _ =>
    destruct (failed_creation_faults 0%N failingCreateSensor stubRunOnce
                (Some 1%nat) (camera 10) "link"%string m [])
      as (_ & He & _);
    [ discriminate | reflexivity | reflexivity | reflexivity
    | reflexivity | reflexivity | exact He ]
  end.
Defined.

(** Witness of X1: the request of the first [PostUpdate] that sees a
    rendering component. *)
Lemma init_request_never_sleeps_witness :
  exists m m',
    runStub [Render []; Render []; PostUpdate 0%Q true] configured = Next m /\
    simPc m = P_InitLock /\
    execStub (Sim 0) m = Next m' /\ simPc m' = P_InitNotify /\
    doInit (dataPtr m') = true.
Proof.
  eexists.
  match goal with |- exists m', ?R = Next ?m /\ _ =>
    assert (R = Next m) as Hrun by (vm_compute; reflexivity);
    destruct (init_request_never_sleeps 0%N stubCreateSensor stubRunOnce
                (Some 1%nat) m) as (_ & _ & H3);
    [ eexists; exact Hrun | ]
  end.
  destruct (H3 eq_refl eq_refl 0%nat) as (m' & He & Hpc & Hd).
  exists m'. repeat split; assumption.
Defined.

(** Witness of X2: the producer asleep in the submission wait, the worker
    about to take the outstanding cycle. *)
Lemma no_mutual_sleep_witness :
  exists m,
    runStub (twoSteps 10 ++ [Sim 0]) configured = Next m /\
    simPc m = P_SubmitWait /\ renderPc m = R_LoopLock /\
    renderServing (renderPc m) = true.
Proof.
  eexists. split; [vm_compute; reflexivity|].
  do 2 (split; [reflexivity|]).
  match goal with |- renderServing (renderPc ?m) = _ =>
    destruct (no_mutual_sleep 0%N stubCreateSensor stubRunOnce
                (Some 1%nat) m) as (H1 & _);
    [ exists (twoSteps 10 ++ [Sim 0]); vm_compute; reflexivity
    | reflexivity
    | exact (H1 eq_refl) ]
  end.
Defined.

(** Witness of X3: a second [Stop] after the one of
    [stop_while_waiting_for_init]. *)
Lemma stop_again_returns_witness :
  exists m m',
    runStub [Render []; Render []; StopCall; StopStep;
             Render []; Render []; Render []; StopStep] configured = Next m /\
    joined m = true /\
    runStub [StopCall; StopStep; StopStep] m = Next m' /\
    dataPtr m' = dataPtr m /\ joined m' = true /\ stopPc m' = S_Idle.
Proof.
  eexists.
  match goal with |- exists m', ?R = Next ?m /\ _ =>
    assert (R = Next m) as Hrun by (vm_compute; reflexivity);
    destruct (stop_again_returns 0%N stubCreateSensor stubRunOnce
                (Some 1%nat) m) as (m' & Hr & Hd & Hj & Hk & _);
    [ eexists; exact Hrun | reflexivity | reflexivity | ]
  end.
  exists m'. split; [exact Hrun|]. split; [reflexivity|].
  repeat split; assumption.
Defined.

(** Witness of X4: [Stop] called while the render thread sleeps in the
    wait of line 118. *)
Lemma stop_returns_outside_window_witness :
  exists m n m',
    runStub [Render []; Render []; StopCall] configured = Next m /\
    renderPc m = R_InitWait /\
    runStub (StopStep :: renderAlone n ++ [StopStep]) m = Next m' /\
    renderPc m' = R_Done /\ joined m' = true.
Proof.
  eexists.
  match goal with |- exists n m', ?R = Next ?m /\ _ =>
    assert (R = Next m) as Hrun by (vm_compute; reflexivity);
    destruct (stop_returns_outside_window 0%N stubCreateSensor stubRunOnce
                (Some 1%nat) m) as (n & m' & _ & Hr & Hd & Hj & _);
    [ eexists; exact Hrun | reflexivity | discriminate | ]
  end.
  exists n, m'. split; [exact Hrun|]. split; [reflexivity|].
  repeat split; assumption.
Defined.

(** Witness of X5: the stub manager creates the first camera. *)
Lemma CreateSensor_success_witness :
  exists d',
    CreateSensor 0%N stubCreateSensor (camera 10) "link"
      (dataPtr configured) [] = Returned "camera" d' [] /\
    sensorIds d' = [1%N].
Proof.
  destruct (CreateSensor_success 0%N stubCreateSensor (camera 10) "link"
              (dataPtr configured) [] 1%N
              (stubCreateSensor (camera 10) ∅).2
              {| Id := 1%N; Name := "camera"; UpdateRate := 10%Q;
                 NextUpdateTime := 0%Q; isRendering := true;
                 sensorScene := None; sensorParent := "";
                 manualSceneUpdate := false |})
    as (d' & Hc & Hids & _);
    [ discriminate | vm_compute; reflexivity | vm_compute; reflexivity
    | reflexivity | discriminate | ].
  exists d'. split; [exact Hc|exact Hids].
Defined.

(** Witness of X6: the first cycle, submitted for a pending sensor with
    nothing selected. *)
Lemma empty_cycle_skips_rendering_witness :
  exists m m',
    runStub (startUp ++ [PostUpdate 0%Q true; Sim 0; Sim 1; Sim 0;
                         Render [(camera 10, "link"%string)]])
      configured = Next m /\
    activeSensors (dataPtr m) = [] /\
    runStub [Render []; Render []] m = Next m' /\
    dataPtr m' = set_updateAvailable false (dataPtr m).
Proof.
  eexists.
  match goal with |- exists m', ?R = Next ?m /\ _ =>
    assert (R = Next m) as Hrun by (vm_compute; reflexivity);
    destruct (empty_cycle_skips_rendering 0%N stubCreateSensor stubRunOnce
                (Some 1%nat) [] [] m eq_refl eq_refl)
      as (m' & Hr & _ & _ & Hd & _)
  end.
  exists m'. split; [exact Hrun|]. split; [reflexivity|].
  split; [exact Hr|exact Hd].
Defined.

(** Witness of X8: [Stop] with the cycle of time 1 outstanding; the
    worker, at the lock of line 138, leaves without taking it. *)
Lemma no_cycle_after_stop_witness :
  exists m m',
    runStub (twoSteps 10 ++ [StopCall]) configured = Next m /\
    updateAvailable (dataPtr m) = true /\ renderPc m = R_LoopLock /\
    execStub (Render []) m = Next m' /\
    List.filter isTake (trace m') = List.filter isTake (trace m) /\
    renderPc m' = R_Done.
Proof.
  do 2 eexists. split; [vm_compute; reflexivity|].
  do 2 (split; [reflexivity|]).
  split; [vm_compute; reflexivity|].
  match goal with |- List.filter _ (trace ?m') = List.filter _ (trace ?m) /\ _ =>
    destruct (no_cycle_after_stop 0%N stubCreateSensor stubRunOnce
                (Some 1%nat) [] m m') as (H1 & _);
    [ exists (twoSteps 10 ++ [StopCall]); vm_compute; reflexivity
    | reflexivity | vm_compute; reflexivity | ]
  end.
  split; [exact H1|reflexivity].
Defined.

(** Witness of X9: the producer asleep with the cycle of time 1
    outstanding. *)
Lemma spurious_wakeup_sleeps_again_witness :
  exists m,
    runStub (twoSteps 10 ++ [Sim 0]) configured = Next m /\
    simPc m = P_SubmitWait /\
    runStub [SpuriousSim; Sim 0] m = Next m.
Proof.
  eexists. split; [vm_compute; reflexivity|]. split; [reflexivity|].
  match goal with |- run _ _ _ _ _ ?m = _ =>
    destruct (spurious_wakeup_sleeps_again 0%N stubCreateSensor stubRunOnce
                (Some 1%nat) 0%nat m eq_refl eq_refl eq_refl eq_refl)
      as [_ H]
  end.
  exact H.
Defined.

(** Witness of X11: the masking step of the cycle of time 1, whose one
    sensor is the camera 1; identifier 2 has no entry before and none
    after. *)
Lemma masking_touches_only_cycle_witness :
  exists m m',
    runStub (oneCycleTaken 10) configured = Next m /\
    activeSensors (dataPtr m) = [1%N] /\
    execStub (Render []) m = Next m' /\
    sensorMask (dataPtr m') !! 2%N = sensorMask (dataPtr m) !! 2%N /\
    renderPc m' = R_LoopRender.
Proof.
  do 2 eexists. split; [vm_compute; reflexivity|].
  split; [reflexivity|]. split; [vm_compute; reflexivity|].
  match goal with |- sensorMask (dataPtr ?m') !! _ = sensorMask (dataPtr ?m) !! _ /\ _ =>
    destruct (masking_touches_only_cycle 0%N stubCreateSensor stubRunOnce
                (Some 1%nat) [] m m') as (H1 & _ & H3 & _);
    [ unfold coherent; apply (bool_decide_unpack _); vm_compute; exact I
    | reflexivity | vm_compute; reflexivity | ]
  end.
  split; [|exact H3]. apply H1.
  intros Hin. apply list_elem_of_In in Hin. vm_compute in Hin.
  destruct Hin as [Heq|[]]. discriminate.
Defined.

(** Witness of X12: a [PostUpdate] after [Stop] has returned. *)
Lemma gate_closed_does_nothing_witness :
  exists m m',
    runStub (twoSteps 10 ++
             [Sim 0; StopCall; StopStep; Sim 0; Render []; StopStep])
      configured = Next m /\
    initialized (dataPtr m) = true /\ running (dataPtr m) = false /\
    runStub [PostUpdate 2%Q true; Sim 0] m = Next m' /\
    simPc m' = P_Idle /\ dataPtr m' = dataPtr m /\ trace m' = trace m.
Proof.
  eexists.
  match goal with |- exists m', ?R = Next ?m /\ _ =>
    assert (R = Next m) as Hrun by (vm_compute; reflexivity);
    destruct (gate_closed_does_nothing 0%N stubCreateSensor stubRunOnce
                (Some 1%nat) 2%Q true 0%nat m eq_refl eq_refl eq_refl)
      as (m' & Hr & Hpc & Hd & Ht & _)
  end.
  exists m'. split; [exact Hrun|]. do 2 (split; [reflexivity|]).
  repeat split; assumption.
Defined.
